(** * The story client of [frontend/src/App.tsx]

    The repository holds two React components over the same backend
    contract: a styled one (component library, refresh button, search box)
    and a plain one.  Both keep their view state in [useState] cells and
    talk to the backend through two [fetch] calls.

    The embedding follows the source:
    - a JavaScript string is the list of its UTF-16 code units;
    - the [useState] cells of a component are the fields of a record;
    - an [async] handler is a computation in a small state, log and
      exception monad, cut at the [await fetch(...)]: the part before the
      cut issues the request, the part after it runs when the promise
      settles;
    - what the platform returns (the settled promise of [fetch], of
      [res.text()] and of [res.json()]) is data given to the handler. *)

From Stdlib Require Import ZArith NArith Lia Ascii String.
From stdpp Require Import base tactics option list.

Local Open Scope N_scope.

(** ** JavaScript strings *)

Module Js.

(** A string value: its sequence of 16-bit code units. *)
Definition jsstring := list N.

(** The code units of a literal written in ASCII. *)
Definition u (s : string) : jsstring :=
  map N_of_ascii (list_ascii_of_string s).

(** [!s] is true exactly for the empty string, so a string is truthy
    when it has a code unit. *)
Definition truthy (s : jsstring) : bool :=
  match s with
  | [] => false
  | _ :: _ => true
  end.

(** [a || b] on strings. *)
Definition or_else (a b : jsstring) : jsstring :=
  if truthy a then a else b.

(** The code points [String.prototype.trim] strips: the WhiteSpace and
    LineTerminator productions of ECMAScript (all of them in the basic
    plane, so each is one code unit). *)
Definition is_white_space (c : N) : bool :=
  (c =? 9) || (c =? 10) || (c =? 11) || (c =? 12) || (c =? 13) ||
  (c =? 32) || (c =? 160) || (c =? 5760) ||
  ((8192 <=? c) && (c <=? 8202)) ||
  (c =? 8232) || (c =? 8233) || (c =? 8239) || (c =? 8287) ||
  (c =? 12288) || (c =? 65279).

Fixpoint trimStart (s : jsstring) : jsstring :=
  match s with
  | [] => []
  | c :: s' => if is_white_space c then trimStart s' else s
  end.

Definition trimEnd (s : jsstring) : jsstring :=
  rev (trimStart (rev s)).

Definition trim (s : jsstring) : jsstring :=
  trimEnd (trimStart s).

(** [t.startsWith(q)] at position 0. *)
Fixpoint startsWith (t q : jsstring) {struct q} : bool :=
  match q, t with
  | [], _ => true
  | _ :: _, [] => false
  | c :: q', d :: t' => (c =? d) && startsWith t' q'
  end.

(** [t.includes(q)]: [q] occurs in [t] at some position. *)
Fixpoint includes (t q : jsstring) : bool :=
  startsWith t q ||
  match t with
  | [] => false
  | _ :: t' => includes t' q
  end.

(** Lower-casing of the ASCII letters, the part of
    [String.prototype.toLowerCase] that does not need the Unicode
    tables.  It is the instance used to evaluate [filtered] on ASCII
    text. *)
Definition ascii_lower_unit (c : N) : N :=
  if (65 <=? c) && (c <=? 90) then c + 32 else c.

Definition ascii_toLowerCase (s : jsstring) : jsstring :=
  map ascii_lower_unit s.

End Js.

Import Js.

(** ** Stories, promises and the backend *)

Module Story.

(** [type Story = { id; prompt; story; created_at }]. *)
Record t : Type := make {
  id : Z;
  prompt : jsstring;
  story : jsstring;
  created_at : jsstring
}.

End Story.

(** A thrown value; the handlers only ever read its [message]. *)
Record Error : Type := new_Error { message : jsstring }.

(** How an awaited promise settles: [await] yields the value of a
    fulfilled promise and throws the reason of a rejected one. *)
Inductive Settled (A : Type) : Type :=
  | Fulfilled (a : A)
  | Rejected (e : Error).
Arguments Fulfilled {A} a.
Arguments Rejected {A} e.

(** The part of a [Response] the handlers use: the status line and what
    the two body readers settle to.  [A] is the type the source gives to
    the decoded body ([Story] or [Story[]]). *)
Record Response (A : Type) : Type := {
  status : Z;
  text : Settled jsstring;
  json : Settled A
}.
Arguments status {A} r.
Arguments text {A} r.
Arguments json {A} r.

(** [res.ok]: the status is in the range 200 to 299 (Fetch standard). *)
Definition ok {A : Type} (res : Response A) : bool :=
  ((200 <=? status res) && (status res <=? 299))%Z.

(** The two calls of the client, both to [`${API_BASE}/api/story`]:
    a plain [fetch] (GET), and a POST whose JSON body is [{ prompt: p }]. *)
Inductive Request : Type :=
  | GET_story
  | POST_story (p : jsstring).

(** What a handler does to the outside. *)
Inductive Effect : Type :=
  | Fetch (req : Request)
  | ConsoleError (e : Error).

(** ** Handlers

    A handler reads and writes the state cells [S], appends to the log of
    effects and either returns or throws. *)

Definition Handler (S A : Type) : Type := S -> Settled A * S * list Effect.

Section HandlerMonad.

Context {S : Type}.

#[export] Instance Handler_ret : MRet (Handler S) :=
  fun A (a : A) s => (Fulfilled a, s, []).

#[export] Instance Handler_bind : MBind (Handler S) :=
  fun A B (k : A -> Handler S B) (m : Handler S A) s =>
    match m s with
    | (Fulfilled a, s1, w1) =>
        let '(r, s2, w2) := k a s1 in (r, s2, w1 ++ w2)
    | (Rejected e, s1, w1) => (Rejected e, s1, w1)
    end.

(** Read the cells as rendered. *)
Definition get : Handler S S := fun s => (Fulfilled s, s, []).

(** A [setX(...)] call. *)
Definition set (f : S -> S) : Handler S unit := fun s => (Fulfilled tt, f s, []).

Definition emit (e : Effect) : Handler S unit := fun s => (Fulfilled tt, s, [e]).

Definition throw {A : Type} (e : Error) : Handler S A := fun s => (Rejected e, s, []).

(** [await p] for a promise that has settled. *)
Definition await {A : Type} (p : Settled A) : Handler S A := fun s => (p, s, []).

(** [try { body } catch (e) { handler } finally { fin }]. *)
Definition try_catch_finally
    (body : Handler S unit) (handler : Error -> Handler S unit)
    (fin : Handler S unit) : Handler S unit :=
  fun s =>
    let '(r1, s1, w1) := body s in
    let '(r2, s2, w2) :=
      match r1 with
      | Fulfilled _ => (Fulfilled tt, s1, [])
      | Rejected e => handler e s1
      end in
    let '(r3, s3, w3) := fin s2 in
    (match r3 with Fulfilled _ => r2 | Rejected e => Rejected e end,
     s3, w1 ++ w2 ++ w3).

(** [try { body } catch (e) { handler }]. *)
Definition try_catch
    (body : Handler S unit) (handler : Error -> Handler S unit) : Handler S unit :=
  try_catch_finally body handler (mret tt).

(** The cells a handler leaves behind and the effects it had. *)
Definition state_of {A : Type} (r : Settled A * S * list Effect) : S := snd (fst r).
Definition effects_of {A : Type} (r : Settled A * S * list Effect) : list Effect := snd r.

End HandlerMonad.

(** [fetch(...)]: the call is logged and the promise awaited; [net] says
    how the backend answers. *)
Definition fetch {S A : Type} (net : Request -> Settled (Response A))
    (req : Request) : Handler S (Response A) :=
  emit (Fetch req);; await (net req).

(** The requests among the effects of a handler. *)
Definition is_GET (e : Effect) : bool :=
  match e with Fetch GET_story => true | _ => false end.
Definition is_POST (e : Effect) : bool :=
  match e with Fetch (POST_story _) => true | _ => false end.

Definition Enter : jsstring := u "Enter".

(** ** A mounted component

    The component with its surroundings: the cells, the number of requests
    of each kind that have not settled yet, and everything it has done so
    far. *)

Record App (S : Type) : Type := {
  view : S;
  pending_list : nat;
  pending_generate : nat;
  log : list Effect
}.
Arguments view {S} a.
Arguments pending_list {S} a.
Arguments pending_generate {S} a.
Arguments log {S} a.

(** Run a handler: the cells are re-rendered, the requests it issued are
    pending from now on, its effects are logged.  (None of the handlers
    lets an exception escape, so the outcome is dropped.) *)
Definition run {S : Type} (h : Handler S unit) (a : App S) : App S :=
  let '(_, s, w) := h (view a) in
  {| view := s;
     pending_list := pending_list a + length (List.filter is_GET w);
     pending_generate := pending_generate a + length (List.filter is_POST w);
     log := log a ++ w |}.

(** One pending request of a kind settles. *)
Definition one_list_less {S : Type} (a : App S) (n : nat) : App S :=
  {| view := view a; pending_list := n;
     pending_generate := pending_generate a; log := log a |}.
Definition one_generate_less {S : Type} (a : App S) (n : nat) : App S :=
  {| view := view a; pending_list := pending_list a;
     pending_generate := n; log := log a |}.

(** ** The styled component (first [App]) *)

Module Styled.

(** The [useState] cells. *)
Record State : Type := {
  prompt : jsstring;
  loading : bool;
  fetching : bool;
  error : option jsstring;
  stories : list Story.t;
  generated : option Story.t;
  query : jsstring
}.

Definition initial : State :=
  {| prompt := []; loading := false; fetching := false; error := None;
     stories := []; generated := None; query := [] |}.

Definition setPrompt (v : jsstring) : Handler State unit :=
  set (fun s => {| prompt := v; loading := loading s; fetching := fetching s;
                   error := error s; stories := stories s;
                   generated := generated s; query := query s |}).
Definition setLoading (v : bool) : Handler State unit :=
  set (fun s => {| prompt := prompt s; loading := v; fetching := fetching s;
                   error := error s; stories := stories s;
                   generated := generated s; query := query s |}).
Definition setFetching (v : bool) : Handler State unit :=
  set (fun s => {| prompt := prompt s; loading := loading s; fetching := v;
                   error := error s; stories := stories s;
                   generated := generated s; query := query s |}).
Definition setError (v : option jsstring) : Handler State unit :=
  set (fun s => {| prompt := prompt s; loading := loading s; fetching := fetching s;
                   error := v; stories := stories s;
                   generated := generated s; query := query s |}).
(** [setStories] takes the updater form; [setStories(data)] is the
    constant updater. *)
Definition setStories (f : list Story.t -> list Story.t) : Handler State unit :=
  set (fun s => {| prompt := prompt s; loading := loading s; fetching := fetching s;
                   error := error s; stories := f (stories s);
                   generated := generated s; query := query s |}).
Definition setGenerated (v : option Story.t) : Handler State unit :=
  set (fun s => {| prompt := prompt s; loading := loading s; fetching := fetching s;
                   error := error s; stories := stories s;
                   generated := v; query := query s |}).
Definition setQuery (v : jsstring) : Handler State unit :=
  set (fun s => {| prompt := prompt s; loading := loading s; fetching := fetching s;
                   error := error s; stories := stories s;
                   generated := generated s; query := v |}).

(** *** [loadStories] *)

Definition loadStories (net : Request -> Settled (Response (list Story.t)))
  : Handler State unit :=
  try_catch_finally
    (setFetching true;;
     res ← fetch net GET_story;
     (if negb (ok res)
      then throw (new_Error (u "Failed to load stories"))
      else mret tt);;
     data ← await (json res);
     setStories (fun _ => data))
    (fun e => emit (ConsoleError e))
    (setFetching false).

(** The same handler cut at [await fetch]: up to the call ... *)
Definition loadStories_begin : Handler State unit :=
  setFetching true;; emit (Fetch GET_story).

(** ... and from the moment the promise settles. *)
Definition loadStories_settled (fetched : Settled (Response (list Story.t)))
  : Handler State unit :=
  try_catch_finally
    (res ← await fetched;
     (if negb (ok res)
      then throw (new_Error (u "Failed to load stories"))
      else mret tt);;
     data ← await (json res);
     setStories (fun _ => data))
    (fun e => emit (ConsoleError e))
    (setFetching false).

(** *** [onGenerate]

    [data] is read through its declared type [Story]; [Loose.onGenerate]
    below is this handler over bodies that may be [null]. *)

Definition onGenerate (net : Request -> Settled (Response Story.t))
  : Handler State unit :=
  s ← get;
  let p := trim (prompt s) in
  if negb (truthy p) then mret tt else
  setLoading true;;
  setError None;;
  setGenerated None;;
  try_catch_finally
    (res ← fetch net (POST_story p);
     (if negb (ok res)
      then (txt ← await (text res);
            throw (new_Error (or_else txt (u "Server error"))))
      else mret tt);;
     data ← await (json res);
     setGenerated (Some data);;
     setStories (fun prev => data :: prev);;
     setPrompt [])
    (fun e => setError (Some (or_else (message e) (u "Failed to generate"))))
    (setLoading false).

Definition onGenerate_begin : Handler State unit :=
  s ← get;
  let p := trim (prompt s) in
  if negb (truthy p) then mret tt else
  setLoading true;;
  setError None;;
  setGenerated None;;
  emit (Fetch (POST_story p)).

Definition onGenerate_settled (fetched : Settled (Response Story.t))
  : Handler State unit :=
  try_catch_finally
    (res ← await fetched;
     (if negb (ok res)
      then (txt ← await (text res);
            throw (new_Error (or_else txt (u "Server error"))))
      else mret tt);;
     data ← await (json res);
     setGenerated (Some data);;
     setStories (fun prev => data :: prev);;
     setPrompt [])
    (fun e => setError (Some (or_else (message e) (u "Failed to generate"))))
    (setLoading false).

(** *** [filtered] *)

Section Filtered.

(** [String.prototype.toLowerCase], which needs the Unicode case
    tables, is left to the platform. *)
Variable toLowerCase : jsstring -> jsstring.

Definition filtered (stories : list Story.t) (query : jsstring) : list Story.t :=
  let q := toLowerCase (trim query) in
  if negb (truthy q) then stories else
  List.filter
    (fun s =>
       includes (toLowerCase (Story.prompt s)) q ||
       includes (toLowerCase (Story.story s)) q)
    stories.

End Filtered.

(** *** The rendered controls *)

(** [disabled={loading || !prompt.trim()}] on the submit button. *)
Definition submit_disabled (s : State) : bool :=
  loading s || negb (truthy (trim (prompt s))).

(** [disabled={fetching}] on the refresh button. *)
Definition refresh_disabled (s : State) : bool := fetching s.

(** [{error && <Alert>...}]: the banner shows for a non-empty error. *)
Definition banner (s : State) : option jsstring :=
  match error s with
  | Some e => if truthy e then Some e else None
  | None => None
  end.

(** What can happen to the mounted component: the user's actions and
    the settling of a request it has issued. *)
Inductive Event : Type :=
  | Mount
  | ChangePrompt (v : jsstring)
  | KeyDown (key : jsstring)
  | ClickSubmit
  | ClickRefresh
  | ChangeQuery (v : jsstring)
  | ListSettled (fetched : Settled (Response (list Story.t)))
  | GenerateSettled (fetched : Settled (Response Story.t)).

Definition mounted : App State :=
  {| view := initial; pending_list := 0; pending_generate := 0; log := [] |}.

Definition handler_of (ev : Event) (s : State) : Handler State unit :=
  match ev with
  | Mount => loadStories_begin
  | ChangePrompt v => setPrompt v
  | KeyDown key => if decide (key = Enter) then onGenerate_begin else mret tt
  | ClickSubmit => if submit_disabled s then mret tt else onGenerate_begin
  | ClickRefresh => if refresh_disabled s then mret tt else loadStories_begin
  | ChangeQuery v => setQuery v
  | ListSettled fetched => loadStories_settled fetched
  | GenerateSettled fetched => onGenerate_settled fetched
  end.

(** One event.  A settling without a pending request of its kind cannot
    happen and changes nothing. *)
Definition step (a : App State) (ev : Event) : App State :=
  match ev with
  | ListSettled _ =>
      match pending_list a with
      | O => a
      | S n => run (handler_of ev (view a)) (one_list_less a n)
      end
  | GenerateSettled _ =>
      match pending_generate a with
      | O => a
      | S n => run (handler_of ev (view a)) (one_generate_less a n)
      end
  | _ => run (handler_of ev (view a)) a
  end.

Definition steps (a : App State) (evs : list Event) : App State :=
  fold_left step evs a.

End Styled.

(** ** The plain component (second [App]) *)

Module Plain.

Record State : Type := {
  prompt : jsstring;
  loading : bool;
  error : option jsstring;
  stories : list Story.t;
  current : jsstring
}.

Definition initial : State :=
  {| prompt := []; loading := false; error := None; stories := [];
     current := [] |}.

Definition setPrompt (v : jsstring) : Handler State unit :=
  set (fun s => {| prompt := v; loading := loading s; error := error s;
                   stories := stories s; current := current s |}).
Definition setLoading (v : bool) : Handler State unit :=
  set (fun s => {| prompt := prompt s; loading := v; error := error s;
                   stories := stories s; current := current s |}).
Definition setError (v : option jsstring) : Handler State unit :=
  set (fun s => {| prompt := prompt s; loading := loading s; error := v;
                   stories := stories s; current := current s |}).
Definition setStories (f : list Story.t -> list Story.t) : Handler State unit :=
  set (fun s => {| prompt := prompt s; loading := loading s; error := error s;
                   stories := f (stories s); current := current s |}).
Definition setCurrent (v : jsstring) : Handler State unit :=
  set (fun s => {| prompt := prompt s; loading := loading s; error := error s;
                   stories := stories s; current := v |}).

(** *** [loadStories] *)

Definition loadStories (net : Request -> Settled (Response (list Story.t)))
  : Handler State unit :=
  try_catch
    (res ← fetch net GET_story;
     (if negb (ok res)
      then throw (new_Error (u "Failed to load stories"))
      else mret tt);;
     data ← await (json res);
     setStories (fun _ => data))
    (fun e => emit (ConsoleError e)).

Definition loadStories_begin : Handler State unit :=
  emit (Fetch GET_story).

Definition loadStories_settled (fetched : Settled (Response (list Story.t)))
  : Handler State unit :=
  try_catch
    (res ← await fetched;
     (if negb (ok res)
      then throw (new_Error (u "Failed to load stories"))
      else mret tt);;
     data ← await (json res);
     setStories (fun _ => data))
    (fun e => emit (ConsoleError e)).

(** *** [generate]

    [data] is read through its declared type [Story].  The one body
    outside the type on which this code takes another path, the JSON
    [null] ([data.story] throws), is in [Loose.generate] below, which is
    this handler on every body of the declared type. *)

Definition generate (net : Request -> Settled (Response Story.t))
  : Handler State unit :=
  s ← get;
  let p := trim (prompt s) in
  if negb (truthy p) then mret tt else
  setLoading true;;
  setError None;;
  setCurrent [];;
  try_catch_finally
    (res ← fetch net (POST_story p);
     (if negb (ok res)
      then (txt ← await (text res);
            throw (new_Error (or_else txt (u "Server error"))))
      else mret tt);;
     data ← await (json res);
     setCurrent (Story.story data);;
     setStories (fun prev => data :: prev);;
     setPrompt [])
    (fun e => setError (Some (or_else (message e) (u "Failed to generate"))))
    (setLoading false).

Definition generate_begin : Handler State unit :=
  s ← get;
  let p := trim (prompt s) in
  if negb (truthy p) then mret tt else
  setLoading true;;
  setError None;;
  setCurrent [];;
  emit (Fetch (POST_story p)).

Definition generate_settled (fetched : Settled (Response Story.t))
  : Handler State unit :=
  try_catch_finally
    (res ← await fetched;
     (if negb (ok res)
      then (txt ← await (text res);
            throw (new_Error (or_else txt (u "Server error"))))
      else mret tt);;
     data ← await (json res);
     setCurrent (Story.story data);;
     setStories (fun prev => data :: prev);;
     setPrompt [])
    (fun e => setError (Some (or_else (message e) (u "Failed to generate"))))
    (setLoading false).

(** *** The rendered controls *)

Definition submit_disabled (s : State) : bool :=
  loading s || negb (truthy (trim (prompt s))).

Definition banner (s : State) : option jsstring :=
  match error s with
  | Some e => if truthy e then Some e else None
  | None => None
  end.

Inductive Event : Type :=
  | Mount
  | ChangePrompt (v : jsstring)
  | KeyDown (key : jsstring)
  | ClickSubmit
  | ListSettled (fetched : Settled (Response (list Story.t)))
  | GenerateSettled (fetched : Settled (Response Story.t)).

Definition mounted : App State :=
  {| view := initial; pending_list := 0; pending_generate := 0; log := [] |}.

Definition handler_of (ev : Event) (s : State) : Handler State unit :=
  match ev with
  | Mount => loadStories_begin
  | ChangePrompt v => setPrompt v
  | KeyDown key => if decide (key = Enter) then generate_begin else mret tt
  | ClickSubmit => if submit_disabled s then mret tt else generate_begin
  | ListSettled fetched => loadStories_settled fetched
  | GenerateSettled fetched => generate_settled fetched
  end.

Definition step (a : App State) (ev : Event) : App State :=
  match ev with
  | ListSettled _ =>
      match pending_list a with
      | O => a
      | S n => run (handler_of ev (view a)) (one_list_less a n)
      end
  | GenerateSettled _ =>
      match pending_generate a with
      | O => a
      | S n => run (handler_of ev (view a)) (one_generate_less a n)
      end
  | _ => run (handler_of ev (view a)) a
  end.

Definition steps (a : App State) (evs : list Event) : App State :=
  fold_left step evs a.

End Plain.

(** The styled component offers every action of the plain one. *)
Definition styled_event (ev : Plain.Event) : Styled.Event :=
  match ev with
  | Plain.Mount => Styled.Mount
  | Plain.ChangePrompt v => Styled.ChangePrompt v
  | Plain.KeyDown key => Styled.KeyDown key
  | Plain.ClickSubmit => Styled.ClickSubmit
  | Plain.ListSettled fetched => Styled.ListSettled fetched
  | Plain.GenerateSettled fetched => Styled.GenerateSettled fetched
  end.

(** ** The words of the specification

    The notions the specification uses and the source has no name for. *)

Module Spec.

(** A call succeeds when the response is ok and its body decodes; the
    value is the decoded body.  A rejected [fetch] (network error), a
    response that is not ok and a body that does not decode are the
    failures. *)
Definition succeeded {A : Type} (fetched : Settled (Response A)) : option A :=
  match fetched with
  | Fulfilled res =>
      if ok res then
        match json res with
        | Fulfilled data => Some data
        | Rejected _ => None
        end
      else None
  | Rejected _ => None
  end.

Definition server_error : jsstring := u "Server error".
Definition failed_to_generate : jsstring := u "Failed to generate".
Definition failed_to_load : Error := new_Error (u "Failed to load stories").

Section CaseInsensitive.

Variable toLowerCase : jsstring -> jsstring.

(** [text] contains [q] as a case-insensitive substring: once both are
    lower-cased, [q] occurs in [text]. *)
Definition ci_contains (q text : jsstring) : Prop :=
  exists pre suf, toLowerCase text = pre ++ toLowerCase q ++ suf.

(** The prompt or the story text of [s] contains [q]. *)
Definition story_matches (q : jsstring) (s : Story.t) : Prop :=
  ci_contains q (Story.prompt s) \/ ci_contains q (Story.story s).

End CaseInsensitive.

(** What the plain component shows for the result the styled one holds. *)
Definition shown (g : option Story.t) : jsstring :=
  match g with
  | Some data => Story.story data
  | None => []
  end.

(** The two components agree: same prompt, loading flag, error and
    collection, the same result on display, the same requests pending,
    and the same calls and diagnostics so far. *)
Record same_contract (a : App Styled.State) (b : App Plain.State) : Prop := {
  same_prompt : Styled.prompt (view a) = Plain.prompt (view b);
  same_loading : Styled.loading (view a) = Plain.loading (view b);
  same_error : Styled.error (view a) = Plain.error (view b);
  same_stories : Styled.stories (view a) = Plain.stories (view b);
  same_current : shown (Styled.generated (view a)) = Plain.current (view b);
  same_pending_list : pending_list a = pending_list b;
  same_pending_generate : pending_generate a = pending_generate b;
  same_log : log a = log b
}.

End Spec.

(** ** Sample data *)

Module Sample.

Definition dragons : Story.t :=
  Story.make 7 (u "dragons") (u "Once upon a time") (u "2025-01-01T00:00:00Z").
Definition cats : Story.t :=
  Story.make 1 (u "cats") (u "...") (u "2025-01-01T00:00:00Z").
Definition dogs : Story.t :=
  Story.make 2 (u "dogs") (u "...") (u "2025-01-02T00:00:00Z").

(** A backend that answers every generation with [dragons]. *)
Definition created (status : Z) : Request -> Settled (Response Story.t) :=
  fun _ => Fulfilled {| status := status; text := Fulfilled (u "{...}");
                        json := Fulfilled dragons |}.

(** A backend that answers [status] with the body [body], which is not
    JSON. *)
Definition refused {A : Type} (status : Z) (body : jsstring)
  : Request -> Settled (Response A) :=
  fun _ => Fulfilled {| status := status; text := Fulfilled body;
                        json := Rejected (new_Error (u "Unexpected token")) |}.

(** A backend that lists [data]. *)
Definition listed (status : Z) (data : list Story.t)
  : Request -> Settled (Response (list Story.t)) :=
  fun _ => Fulfilled {| status := status; text := Fulfilled (u "[...]");
                        json := Fulfilled data |}.

(** No backend: [fetch] rejects. *)
Definition unreachable {A : Type} : Request -> Settled (Response A) :=
  fun _ => Rejected (new_Error (u "Failed to fetch")).

Definition styled_typed (v : jsstring) : Styled.State :=
  {| Styled.prompt := v; Styled.loading := false; Styled.fetching := false;
     Styled.error := None; Styled.stories := [cats; dogs];
     Styled.generated := Some cats; Styled.query := [] |}.

Definition plain_typed (v : jsstring) : Plain.State :=
  {| Plain.prompt := v; Plain.loading := false; Plain.error := None;
     Plain.stories := [cats; dogs]; Plain.current := Story.story cats |}.

End Sample.

(** ** The rest of the styled component *)

Module StyledRest.

(** [handleCopy]: the clipboard lives outside the component; [clipboard]
    says how [navigator.clipboard.writeText] settles. *)
Definition handleCopy (clipboard : jsstring -> Settled unit) (text : jsstring)
  : Handler Styled.State unit :=
  try_catch (await (clipboard text)) (fun _ => mret tt).

Section Rendered.

Variable toLowerCase : jsstring -> jsstring.

(** [{!fetching && filtered.length === 0 && <Alert>...}]: the notice that
    there are no stories. *)
Definition empty_notice (s : Styled.State) : bool :=
  negb (Styled.fetching s) &&
  Nat.eqb (length (Styled.filtered toLowerCase (Styled.stories s) (Styled.query s))) 0.

(** [filtered.map((s) => <Grid key={s.id}>...)]: the keys of the rendered
    cards. *)
Definition card_keys (s : Styled.State) : list Z :=
  map Story.id (Styled.filtered toLowerCase (Styled.stories s) (Styled.query s)).

End Rendered.

End StyledRest.

(** ** Notions for sequences of events *)

Module Trace.

(** A string as [trim] leaves it when something is left: not empty, and
    neither its first nor its last code unit is white space. *)
Definition well_trimmed (p : jsstring) : Prop :=
  p <> [] /\
  (forall c, head p = Some c -> is_white_space c = false) /\
  (forall c, last p = Some c -> is_white_space c = false).

(** Every request for a generation carries a well trimmed prompt. *)
Definition sound_effect (e : Effect) : Prop :=
  match e with
  | Fetch (POST_story p) => well_trimmed p
  | _ => True
  end.

(** The key event that submits. *)
Definition styled_enter (ev : Styled.Event) : bool :=
  match ev with
  | Styled.KeyDown key => bool_decide (key = Enter)
  | _ => false
  end.

Definition plain_enter (ev : Plain.Event) : bool :=
  match ev with
  | Plain.KeyDown key => bool_decide (key = Enter)
  | _ => false
  end.

Definition styled_mount (ev : Styled.Event) : bool :=
  match ev with
  | Styled.Mount => true
  | _ => false
  end.

(** What one event can do to the mounted styled component, case by case:
    nothing; a cell typed into; a listing or a generation begun (by its
    button only when the button is enabled); a pending listing or
    generation settled, well or badly. *)
Inductive styled_move (a : App Styled.State) (ev : Styled.Event)
  : App Styled.State -> Prop :=
  | styled_nothing : styled_move a ev a
  | styled_typed v :
      styled_move a ev
        {| view := {| Styled.prompt := v;
                      Styled.loading := Styled.loading (view a);
                      Styled.fetching := Styled.fetching (view a);
                      Styled.error := Styled.error (view a);
                      Styled.stories := Styled.stories (view a);
                      Styled.generated := Styled.generated (view a);
                      Styled.query := Styled.query (view a) |};
           pending_list := pending_list a;
           pending_generate := pending_generate a; log := log a |}
  | styled_searched v :
      styled_move a ev
        {| view := {| Styled.prompt := Styled.prompt (view a);
                      Styled.loading := Styled.loading (view a);
                      Styled.fetching := Styled.fetching (view a);
                      Styled.error := Styled.error (view a);
                      Styled.stories := Styled.stories (view a);
                      Styled.generated := Styled.generated (view a);
                      Styled.query := v |};
           pending_list := pending_list a;
           pending_generate := pending_generate a; log := log a |}
  | styled_list_begun :
      (styled_mount ev = false -> Styled.fetching (view a) = false) ->
      styled_move a ev
        {| view := {| Styled.prompt := Styled.prompt (view a);
                      Styled.loading := Styled.loading (view a);
                      Styled.fetching := true;
                      Styled.error := Styled.error (view a);
                      Styled.stories := Styled.stories (view a);
                      Styled.generated := Styled.generated (view a);
                      Styled.query := Styled.query (view a) |};
           pending_list := S (pending_list a);
           pending_generate := pending_generate a;
           log := log a ++ [Fetch GET_story] |}
  | styled_generate_begun :
      (styled_enter ev = false -> Styled.loading (view a) = false) ->
      trim (Styled.prompt (view a)) <> [] ->
      styled_move a ev
        {| view := {| Styled.prompt := Styled.prompt (view a);
                      Styled.loading := true;
                      Styled.fetching := Styled.fetching (view a);
                      Styled.error := None;
                      Styled.stories := Styled.stories (view a);
                      Styled.generated := None;
                      Styled.query := Styled.query (view a) |};
           pending_list := pending_list a;
           pending_generate := S (pending_generate a);
           log := log a ++ [Fetch (POST_story (trim (Styled.prompt (view a))))] |}
  | styled_listed n fetched data :
      ev = Styled.ListSettled fetched -> Spec.succeeded fetched = Some data ->
      pending_list a = S n ->
      styled_move a ev
        {| view := {| Styled.prompt := Styled.prompt (view a);
                      Styled.loading := Styled.loading (view a);
                      Styled.fetching := false;
                      Styled.error := Styled.error (view a);
                      Styled.stories := data;
                      Styled.generated := Styled.generated (view a);
                      Styled.query := Styled.query (view a) |};
           pending_list := n;
           pending_generate := pending_generate a; log := log a |}
  | styled_list_failed n e :
      pending_list a = S n ->
      styled_move a ev
        {| view := {| Styled.prompt := Styled.prompt (view a);
                      Styled.loading := Styled.loading (view a);
                      Styled.fetching := false;
                      Styled.error := Styled.error (view a);
                      Styled.stories := Styled.stories (view a);
                      Styled.generated := Styled.generated (view a);
                      Styled.query := Styled.query (view a) |};
           pending_list := n;
           pending_generate := pending_generate a;
           log := log a ++ [ConsoleError e] |}
  | styled_generated n fetched data :
      ev = Styled.GenerateSettled fetched -> Spec.succeeded fetched = Some data ->
      pending_generate a = S n ->
      styled_move a ev
        {| view := {| Styled.prompt := [];
                      Styled.loading := false;
                      Styled.fetching := Styled.fetching (view a);
                      Styled.error := Styled.error (view a);
                      Styled.stories := data :: Styled.stories (view a);
                      Styled.generated := Some data;
                      Styled.query := Styled.query (view a) |};
           pending_list := pending_list a;
           pending_generate := n; log := log a |}
  | styled_generate_failed n msg :
      pending_generate a = S n -> msg <> [] ->
      styled_move a ev
        {| view := {| Styled.prompt := Styled.prompt (view a);
                      Styled.loading := false;
                      Styled.fetching := Styled.fetching (view a);
                      Styled.error := Some msg;
                      Styled.stories := Styled.stories (view a);
                      Styled.generated := Styled.generated (view a);
                      Styled.query := Styled.query (view a) |};
           pending_list := pending_list a;
           pending_generate := n; log := log a |}.

(** The same for the plain component. *)
Inductive plain_move (a : App Plain.State) (ev : Plain.Event)
  : App Plain.State -> Prop :=
  | plain_nothing : plain_move a ev a
  | plain_typed v :
      plain_move a ev
        {| view := {| Plain.prompt := v;
                      Plain.loading := Plain.loading (view a);
                      Plain.error := Plain.error (view a);
                      Plain.stories := Plain.stories (view a);
                      Plain.current := Plain.current (view a) |};
           pending_list := pending_list a;
           pending_generate := pending_generate a; log := log a |}
  | plain_list_begun :
      plain_move a ev
        {| view := view a;
           pending_list := S (pending_list a);
           pending_generate := pending_generate a;
           log := log a ++ [Fetch GET_story] |}
  | plain_generate_begun :
      (plain_enter ev = false -> Plain.loading (view a) = false) ->
      trim (Plain.prompt (view a)) <> [] ->
      plain_move a ev
        {| view := {| Plain.prompt := Plain.prompt (view a);
                      Plain.loading := true;
                      Plain.error := None;
                      Plain.stories := Plain.stories (view a);
                      Plain.current := [] |};
           pending_list := pending_list a;
           pending_generate := S (pending_generate a);
           log := log a ++ [Fetch (POST_story (trim (Plain.prompt (view a))))] |}
  | plain_listed n fetched data :
      ev = Plain.ListSettled fetched -> Spec.succeeded fetched = Some data ->
      pending_list a = S n ->
      plain_move a ev
        {| view := {| Plain.prompt := Plain.prompt (view a);
                      Plain.loading := Plain.loading (view a);
                      Plain.error := Plain.error (view a);
                      Plain.stories := data;
                      Plain.current := Plain.current (view a) |};
           pending_list := n;
           pending_generate := pending_generate a; log := log a |}
  | plain_list_failed n e :
      pending_list a = S n ->
      plain_move a ev
        {| view := view a;
           pending_list := n;
           pending_generate := pending_generate a;
           log := log a ++ [ConsoleError e] |}
  | plain_generated n fetched data :
      ev = Plain.GenerateSettled fetched -> Spec.succeeded fetched = Some data ->
      pending_generate a = S n ->
      plain_move a ev
        {| view := {| Plain.prompt := [];
                      Plain.loading := false;
                      Plain.error := Plain.error (view a);
                      Plain.stories := data :: Plain.stories (view a);
                      Plain.current := Story.story data |};
           pending_list := pending_list a;
           pending_generate := n; log := log a |}
  | plain_generate_failed n msg :
      pending_generate a = S n -> msg <> [] ->
      plain_move a ev
        {| view := {| Plain.prompt := Plain.prompt (view a);
                      Plain.loading := false;
                      Plain.error := Some msg;
                      Plain.stories := Plain.stories (view a);
                      Plain.current := Plain.current (view a) |};
           pending_list := pending_list a;
           pending_generate := n; log := log a |}.

End Trace.

(** ** Letter case *)

Module Case.

(** Text in ASCII. *)
Definition ascii_text (s : jsstring) : Prop := Forall (fun c => c < 128) s.

Definition ascii_story (s : Story.t) : Prop :=
  ascii_text (Story.prompt s) /\ ascii_text (Story.story s).

Definition is_upper (c : N) : bool := (65 <=? c) && (c <=? 90).

(** Two code units that are equal, or the same ASCII letter in its two
    cases. *)
Definition same_letter (a b : N) : Prop :=
  a = b \/ (is_upper a = true /\ b = a + 32) \/ (is_upper b = true /\ a = b + 32).

(** [text] contains [q] up to letter case: some stretch of [text] is [q]
    letter by letter, the case of the letters apart. *)
Definition contains_up_to_case (q text : jsstring) : Prop :=
  exists pre m suf, text = pre ++ m ++ suf /\ Forall2 same_letter m q.

Definition story_contains (q : jsstring) (s : Story.t) : Prop :=
  contains_up_to_case q (Story.prompt s) \/ contains_up_to_case q (Story.story s).

(** A cased letter of the alphabet of [sigma_toLowerCase]: an ASCII
    letter or a Greek sigma (capital 931, final 962, small 963). *)
Definition is_cased (c : N) : bool :=
  ((65 <=? c) && (c <=? 90)) || ((97 <=? c) && (c <=? 122)) ||
  (c =? 931) || (c =? 962) || (c =? 963).

(** The ASCII characters that are case-ignorable in Unicode: apostrophe,
    full stop, colon, circumflex and grave accent. *)
Definition is_case_ignorable (c : N) : bool :=
  (c =? 39) || (c =? 46) || (c =? 58) || (c =? 94) || (c =? 96).

(** A cased letter follows, case-ignorable characters skipped. *)
Fixpoint cased_follows (r : jsstring) : bool :=
  match r with
  | [] => false
  | d :: r' => if is_case_ignorable d then cased_follows r' else is_cased d
  end.

(** [String.prototype.toLowerCase] on text made of ASCII code units and
    Greek sigmas.  ASCII capitals are lowered.  A capital sigma becomes
    the final sigma when a cased letter comes before it and none after
    it, case-ignorable characters skipped on both sides (the Final_Sigma
    condition of Unicode's special casing, which [toLowerCase] applies),
    and the small sigma otherwise.  [cased_before] says whether a cased
    letter comes before [s]. *)
Fixpoint lower_after (cased_before : bool) (s : jsstring) : jsstring :=
  match s with
  | [] => []
  | c :: r =>
      (if c =? 931
       then (if cased_before && negb (cased_follows r) then 962 else 963)
       else ascii_lower_unit c)
      :: lower_after (if is_case_ignorable c then cased_before else is_cased c) r
  end.

Definition sigma_toLowerCase (s : jsstring) : jsstring := lower_after false s.

(** A story whose prompt is a Latin capital A followed by a capital
    sigma. *)
Definition sigma_story : Story.t :=
  Story.make 3 [65; 931] (u "...") (u "2025-01-03T00:00:00Z").

End Case.

(** ** A body outside the declared type

    [const data: Story = await res.json()] declares the decoded body a
    [Story] and checks nothing.  The handlers above read it through that
    type.  Of the values outside it, one takes the two components through
    different code: the JSON [null].  The styled [onGenerate] never reads
    a property of [data] and stores whatever it got; the plain [generate]
    reads [data.story], which throws on [null], inside the [try].  Here
    are the two handlers over bodies that may be [null]. *)

Module Loose.

(** What [res.json()] gave: [null], or a value read through the declared
    type. *)
Inductive Decoded : Type :=
  | Null
  | Typed (data : Story.t).

(** The cells of the styled component when the collection may hold such a
    value. *)
Record State : Type := {
  prompt : jsstring;
  loading : bool;
  fetching : bool;
  error : option jsstring;
  stories : list Decoded;
  generated : option Story.t;
  query : jsstring
}.

(** [setGenerated(data)]: the cell is declared [Story | null]. *)
Definition as_generated (data : Decoded) : option Story.t :=
  match data with
  | Null => None
  | Typed d => Some d
  end.

Definition setPrompt (v : jsstring) : Handler State unit :=
  set (fun s => {| prompt := v; loading := loading s; fetching := fetching s;
                   error := error s; stories := stories s;
                   generated := generated s; query := query s |}).
Definition setLoading (v : bool) : Handler State unit :=
  set (fun s => {| prompt := prompt s; loading := v; fetching := fetching s;
                   error := error s; stories := stories s;
                   generated := generated s; query := query s |}).
Definition setError (v : option jsstring) : Handler State unit :=
  set (fun s => {| prompt := prompt s; loading := loading s; fetching := fetching s;
                   error := v; stories := stories s;
                   generated := generated s; query := query s |}).
Definition setStories (f : list Decoded -> list Decoded) : Handler State unit :=
  set (fun s => {| prompt := prompt s; loading := loading s; fetching := fetching s;
                   error := error s; stories := f (stories s);
                   generated := generated s; query := query s |}).
Definition setGenerated (v : option Story.t) : Handler State unit :=
  set (fun s => {| prompt := prompt s; loading := loading s; fetching := fetching s;
                   error := error s; stories := stories s;
                   generated := v; query := query s |}).

(** The styled [onGenerate]. *)
Definition onGenerate (net : Request -> Settled (Response Decoded))
  : Handler State unit :=
  s ← get;
  let p := trim (prompt s) in
  if negb (truthy p) then mret tt else
  setLoading true;;
  setError None;;
  setGenerated None;;
  try_catch_finally
    (res ← fetch net (POST_story p);
     (if negb (ok res)
      then (txt ← await (text res);
            throw (new_Error (or_else txt (u "Server error"))))
      else mret tt);;
     data ← await (json res);
     setGenerated (as_generated data);;
     setStories (fun prev => data :: prev);;
     setPrompt [])
    (fun e => setError (Some (or_else (message e) (u "Failed to generate"))))
    (setLoading false).

Definition onGenerate_settled (fetched : Settled (Response Decoded))
  : Handler State unit :=
  try_catch_finally
    (res ← await fetched;
     (if negb (ok res)
      then (txt ← await (text res);
            throw (new_Error (or_else txt (u "Server error"))))
      else mret tt);;
     data ← await (json res);
     setGenerated (as_generated data);;
     setStories (fun prev => data :: prev);;
     setPrompt [])
    (fun e => setError (Some (or_else (message e) (u "Failed to generate"))))
    (setLoading false).

(** [data.story]: reading a property of [null] throws the platform's
    [TypeError]; on any other value the read goes through. *)
Definition read {S : Type} (type_error : Error) (data : Decoded)
  : Handler S Story.t :=
  match data with
  | Null => throw type_error
  | Typed d => mret d
  end.

(** The plain [generate].  Nothing is stored when the read throws, so the
    cells are the plain cells. *)
Definition generate (type_error : Error)
    (net : Request -> Settled (Response Decoded)) : Handler Plain.State unit :=
  s ← get;
  let p := trim (Plain.prompt s) in
  if negb (truthy p) then mret tt else
  Plain.setLoading true;;
  Plain.setError None;;
  Plain.setCurrent [];;
  try_catch_finally
    (res ← fetch net (POST_story p);
     (if negb (ok res)
      then (txt ← await (text res);
            throw (new_Error (or_else txt (u "Server error"))))
      else mret tt);;
     data ← await (json res);
     d ← read type_error data;
     Plain.setCurrent (Story.story d);;
     Plain.setStories (fun prev => d :: prev);;
     Plain.setPrompt [])
    (fun e => Plain.setError (Some (or_else (message e) (u "Failed to generate"))))
    (Plain.setLoading false).

Definition generate_settled (type_error : Error)
    (fetched : Settled (Response Decoded)) : Handler Plain.State unit :=
  try_catch_finally
    (res ← await fetched;
     (if negb (ok res)
      then (txt ← await (text res);
            throw (new_Error (or_else txt (u "Server error"))))
      else mret tt);;
     data ← await (json res);
     d ← read type_error data;
     Plain.setCurrent (Story.story d);;
     Plain.setStories (fun prev => d :: prev);;
     Plain.setPrompt [])
    (fun e => Plain.setError (Some (or_else (message e) (u "Failed to generate"))))
    (Plain.setLoading false).

(** A response, an answer and the styled cells of the declared type, seen
    here. *)
Definition typed_response (res : Response Story.t) : Response Decoded :=
  {| status := status res; text := text res;
     json := match json res with
             | Fulfilled d => Fulfilled (Typed d)
             | Rejected e => Rejected e
             end |}.

Definition typed_fetched (fetched : Settled (Response Story.t))
  : Settled (Response Decoded) :=
  match fetched with
  | Fulfilled res => Fulfilled (typed_response res)
  | Rejected e => Rejected e
  end.

Definition typed_state (s : Styled.State) : State :=
  {| prompt := Styled.prompt s; loading := Styled.loading s;
     fetching := Styled.fetching s; error := Styled.error s;
     stories := map Typed (Styled.stories s);
     generated := Styled.generated s; query := Styled.query s |}.

(** A 200 answer whose body is the JSON [null]. *)
Definition null_answer : Request -> Settled (Response Decoded) :=
  fun _ => Fulfilled {| status := 200; text := Fulfilled (u "null");
                        json := Fulfilled Null |}.

(** The error a property read of [null] throws (the text is the
    engine's). *)
Definition null_read : Error :=
  new_Error (u "Cannot read properties of null (reading 'story')").

End Loose.

(** ** The actions the two components share *)

Module Shared.

(** The action of the styled component as the plain one offers it; the
    search box and the refresh button have no counterpart. *)
Definition plain_event (ev : Styled.Event) : option Plain.Event :=
  match ev with
  | Styled.Mount => Some Plain.Mount
  | Styled.ChangePrompt v => Some (Plain.ChangePrompt v)
  | Styled.KeyDown key => Some (Plain.KeyDown key)
  | Styled.ClickSubmit => Some Plain.ClickSubmit
  | Styled.ClickRefresh => None
  | Styled.ChangeQuery _ => None
  | Styled.ListSettled fetched => Some (Plain.ListSettled fetched)
  | Styled.GenerateSettled fetched => Some (Plain.GenerateSettled fetched)
  end.

Definition styled_refresh (ev : Styled.Event) : bool :=
  match ev with
  | Styled.ClickRefresh => true
  | _ => false
  end.

End Shared.

(** ** Facts about the string operations *)

Section StringFacts.

Lemma truthy_true (s : jsstring) : truthy s = true <-> s <> [].
Proof. destruct s; simpl; split; congruence. Qed.

Lemma truthy_false (s : jsstring) : truthy s = false <-> s = [].
Proof. destruct s; simpl; split; congruence. Qed.

Lemma or_else_nonempty (a b : jsstring) : a <> [] -> or_else a b = a.
Proof. intros H. unfold or_else. apply truthy_true in H. now rewrite H. Qed.

Lemma or_else_empty (b : jsstring) : or_else [] b = b.
Proof. reflexivity. Qed.

Lemma or_else_truthy (a b : jsstring) : b <> [] -> or_else a b <> [].
Proof. intros Hb. unfold or_else. destruct a; simpl; congruence. Qed.

(** [(a || b) || c] is [a || b] when [b] is not empty: the fallback of
the [catch] block never replaces the message of an error built with a
fallback of its own. *)
Lemma or_else_or_else (a b c : jsstring) :
  b <> [] -> or_else (or_else a b) c = or_else a b.
Proof. intros Hb. apply or_else_nonempty. now apply or_else_truthy. Qed.

Lemma trimStart_all_space (s : jsstring) :
  Forall (fun c => is_white_space c = true) s -> trimStart s = [].
Proof.
  induction 1 as [|c s Hc _ IH]; simpl; [reflexivity|].
  now rewrite Hc.
Qed.

Lemma trimStart_nil_inv (s : jsstring) :
  trimStart s = [] -> Forall (fun c => is_white_space c = true) s.
Proof.
  induction s as [|c s IH]; simpl; intros H; [constructor|].
  destruct (is_white_space c) eqn:Hc; [|discriminate].
  constructor; auto.
Qed.

(** A string trims to the empty string exactly when it consists of
    white space only (the empty string included). *)
Lemma trim_nil_iff (s : jsstring) :
  trim s = [] <-> Forall (fun c => is_white_space c = true) s.
Proof.
  unfold trim, trimEnd. split.
  - intros H.
    assert (Hr : trimStart (rev (trimStart s)) = []).
    { apply (f_equal (@rev N)) in H. rewrite rev_involutive in H. exact H. }
    apply trimStart_nil_inv in Hr.
    assert (Hs : trimStart s = []).
    { destruct (trimStart s) as [|c r] eqn:E; [reflexivity|].
      exfalso. clear H.
      assert (Hc : is_white_space c = true).
      { rewrite Forall_forall in Hr. apply Hr. rewrite list_elem_of_In.
        apply in_rev. rewrite rev_involutive. now left. }
      clear Hr. induction s as [|d s IH]; simpl in E; [discriminate|].
      destruct (is_white_space d) eqn:Hd; [auto|].
      injection E as -> _. congruence. }
    now apply trimStart_nil_inv.
  - intros H. now rewrite (trimStart_all_space s H).
Qed.

Lemma startsWith_spec (t q : jsstring) :
  startsWith t q = true <-> exists suf, t = q ++ suf.
Proof.
  revert t. induction q as [|c q IH]; intros t; simpl.
  - split; [intros _; now exists t | reflexivity].
  - destruct t as [|d t].
    + split; [discriminate | intros [suf H]; discriminate].
    + rewrite andb_true_iff, N.eqb_eq, IH. split.
      * intros [-> [suf ->]]. now exists suf.
      * intros [suf H]. injection H as -> ->. split; [reflexivity | now exists suf].
Qed.

(** [includes] is substring search: it answers true exactly when the
    text splits around an occurrence of the searched string. *)
Lemma includes_spec (t q : jsstring) :
  includes t q = true <-> exists pre suf, t = pre ++ q ++ suf.
Proof.
  induction t as [|d t IH].
  - simpl. rewrite orb_false_r, startsWith_spec. split.
    + intros [suf H]. now exists [], suf.
    + intros [pre [suf H]]. destruct pre; simpl in H; [now exists suf | discriminate].
  - cbn [includes]. rewrite orb_true_iff, startsWith_spec, IH. split.
    + intros [[suf H] | [pre [suf H]]].
      * now exists [], suf.
      * exists (d :: pre), suf. simpl. now rewrite H.
    + intros [pre [suf H]]. destruct pre as [|e pre]; simpl in H.
      * left. now exists suf.
      * right. injection H as _ ->. now exists pre, suf.
Qed.

Lemma includes_empty (t : jsstring) : includes t [] = true.
Proof. destruct t; reflexivity. Qed.

End StringFacts.

(** ** Running handlers *)

Tactic Notation "handler_unfold" :=
  cbv beta iota zeta delta
    [mbind mret Handler_bind Handler_ret get set emit throw await fetch
     try_catch try_catch_finally state_of effects_of
     Styled.loadStories Styled.loadStories_begin Styled.loadStories_settled
     Styled.onGenerate Styled.onGenerate_begin Styled.onGenerate_settled
     Styled.setPrompt Styled.setLoading Styled.setFetching Styled.setError
     Styled.setStories Styled.setGenerated Styled.setQuery
     Plain.loadStories Plain.loadStories_begin Plain.loadStories_settled
     Plain.generate Plain.generate_begin Plain.generate_settled
     Plain.setPrompt Plain.setLoading Plain.setError Plain.setStories
     Plain.setCurrent negb fst snd app].

Tactic Notation "handler_unfold" "in" hyp(H) :=
  cbv beta iota zeta delta
    [mbind mret Handler_bind Handler_ret get set emit throw await fetch
     try_catch try_catch_finally state_of effects_of
     Styled.loadStories Styled.loadStories_begin Styled.loadStories_settled
     Styled.onGenerate Styled.onGenerate_begin Styled.onGenerate_settled
     Styled.setPrompt Styled.setLoading Styled.setFetching Styled.setError
     Styled.setStories Styled.setGenerated Styled.setQuery
     Plain.loadStories Plain.loadStories_begin Plain.loadStories_settled
     Plain.generate Plain.generate_begin Plain.generate_settled
     Plain.setPrompt Plain.setLoading Plain.setError Plain.setStories
     Plain.setCurrent negb fst snd app] in H.

Section Cut.

(** Cutting a handler at its [await fetch] changes nothing: the whole
    call is the part up to the call followed by the part that runs when
    the promise settles. *)

Lemma styled_loadStories_cut net (s : Styled.State) :
  Styled.loadStories net s =
  (Styled.loadStories_begin;; Styled.loadStories_settled (net GET_story)) s.
Proof.
  handler_unfold. destruct (net GET_story) as [res|e]; [|reflexivity].
  destruct (ok res); [|reflexivity]. destruct (json res); reflexivity.
Qed.

Lemma plain_loadStories_cut net (s : Plain.State) :
  Plain.loadStories net s =
  (Plain.loadStories_begin;; Plain.loadStories_settled (net GET_story)) s.
Proof.
  handler_unfold. destruct (net GET_story) as [res|e]; [|reflexivity].
  destruct (ok res); [|reflexivity]. destruct (json res); reflexivity.
Qed.

Lemma styled_onGenerate_cut net (s : Styled.State) :
  Styled.onGenerate net s =
  (Styled.onGenerate_begin;;
   if truthy (trim (Styled.prompt s))
   then Styled.onGenerate_settled (net (POST_story (trim (Styled.prompt s))))
   else mret tt) s.
Proof.
  handler_unfold. destruct (truthy (trim (Styled.prompt s))); [|reflexivity].
  destruct (net _) as [res|e]; [|reflexivity].
  destruct (ok res); [destruct (json res) | destruct (text res)]; reflexivity.
Qed.

Lemma plain_generate_cut net (s : Plain.State) :
  Plain.generate net s =
  (Plain.generate_begin;;
   if truthy (trim (Plain.prompt s))
   then Plain.generate_settled (net (POST_story (trim (Plain.prompt s))))
   else mret tt) s.
Proof.
  handler_unfold. destruct (truthy (trim (Plain.prompt s))); [|reflexivity].
  destruct (net _) as [res|e]; [|reflexivity].
  destruct (ok res); [destruct (json res) | destruct (text res)]; reflexivity.
Qed.

End Cut.

(** ** Success and failure of a call *)

Section Outcomes.

Context {A : Type}.

Lemma succeeded_inv (fetched : Settled (Response A)) (data : A) :
  Spec.succeeded fetched = Some data ->
  exists res, fetched = Fulfilled res /\ ok res = true /\ json res = Fulfilled data.
Proof.
  destruct fetched as [res|e]; simpl; [|discriminate].
  destruct (ok res) eqn:Hok; [|discriminate].
  destruct (json res) as [d|e] eqn:Hj; [|discriminate].
  intros [= ->]. now exists res.
Qed.

Lemma not_ok_fails (res : Response A) :
  ok res = false -> Spec.succeeded (Fulfilled res) = None.
Proof. intros H. simpl. now rewrite H. Qed.

Lemma ok_status (res : Response A) :
  ok res = true <-> (200 <= status res <= 299)%Z.
Proof. unfold ok. rewrite andb_true_iff, !Z.leb_le. tauto. Qed.

Lemma not_ok_status (res : Response A) :
  ok res = false <-> (status res < 200 \/ 299 < status res)%Z.
Proof.
  unfold ok. rewrite andb_false_iff, !Z.leb_gt. tauto.
Qed.

End Outcomes.

(** ** Generation *)

(** The whole call on a success. *)
Lemma styled_onGenerate_succeeds net (data : Story.t) (s : Styled.State) :
  trim (Styled.prompt s) <> [] ->
  Spec.succeeded (net (POST_story (trim (Styled.prompt s)))) = Some data ->
  Styled.onGenerate net s =
  (Fulfilled tt,
   {| Styled.prompt := []; Styled.loading := false;
      Styled.fetching := Styled.fetching s; Styled.error := None;
      Styled.stories := data :: Styled.stories s;
      Styled.generated := Some data; Styled.query := Styled.query s |},
   [Fetch (POST_story (trim (Styled.prompt s)))]).
Proof.
  intros Hp Hs. apply succeeded_inv in Hs as (res & Hnet & Hok & Hjson).
  apply truthy_true in Hp. handler_unfold.
  now rewrite Hp, Hnet, Hok, Hjson.
Qed.

Lemma plain_generate_succeeds net (data : Story.t) (s : Plain.State) :
  trim (Plain.prompt s) <> [] ->
  Spec.succeeded (net (POST_story (trim (Plain.prompt s)))) = Some data ->
  Plain.generate net s =
  (Fulfilled tt,
   {| Plain.prompt := []; Plain.loading := false; Plain.error := None;
      Plain.stories := data :: Plain.stories s;
      Plain.current := Story.story data |},
   [Fetch (POST_story (trim (Plain.prompt s)))]).
Proof.
  intros Hp Hs. apply succeeded_inv in Hs as (res & Hnet & Hok & Hjson).
  apply truthy_true in Hp. handler_unfold.
  now rewrite Hp, Hnet, Hok, Hjson.
Qed.

(** C1. With a prompt that is not empty once trimmed, a generation whose
    POST succeeds with the Story [data] issues that one request, makes
    [data] the current result, puts it in front of the collection (the
    earlier stories follow in their order) and clears the prompt input.
    The styled component keeps the Story, the plain one its text.  The
    last two parts say the same of the moment the promise settles,
    whatever the cells hold by then. *)
Theorem generate_success net (data : Story.t) :
  (forall s : Styled.State,
     trim (Styled.prompt s) <> [] ->
     Spec.succeeded (net (POST_story (trim (Styled.prompt s)))) = Some data ->
     Styled.onGenerate net s =
     (Fulfilled tt,
      {| Styled.prompt := []; Styled.loading := false;
         Styled.fetching := Styled.fetching s; Styled.error := None;
         Styled.stories := data :: Styled.stories s;
         Styled.generated := Some data; Styled.query := Styled.query s |},
      [Fetch (POST_story (trim (Styled.prompt s)))])) /\
  (forall s : Plain.State,
     trim (Plain.prompt s) <> [] ->
     Spec.succeeded (net (POST_story (trim (Plain.prompt s)))) = Some data ->
     Plain.generate net s =
     (Fulfilled tt,
      {| Plain.prompt := []; Plain.loading := false; Plain.error := None;
         Plain.stories := data :: Plain.stories s;
         Plain.current := Story.story data |},
      [Fetch (POST_story (trim (Plain.prompt s)))])) /\
  (forall fetched (s : Styled.State),
     Spec.succeeded fetched = Some data ->
     Styled.onGenerate_settled fetched s =
     (Fulfilled tt,
      {| Styled.prompt := []; Styled.loading := false;
         Styled.fetching := Styled.fetching s; Styled.error := Styled.error s;
         Styled.stories := data :: Styled.stories s;
         Styled.generated := Some data; Styled.query := Styled.query s |},
      [])) /\
  (forall fetched (s : Plain.State),
     Spec.succeeded fetched = Some data ->
     Plain.generate_settled fetched s =
     (Fulfilled tt,
      {| Plain.prompt := []; Plain.loading := false;
         Plain.error := Plain.error s;
         Plain.stories := data :: Plain.stories s;
         Plain.current := Story.story data |},
      [])).
Proof.
  repeat split.
  - intros s. apply styled_onGenerate_succeeds.
  - intros s. apply plain_generate_succeeds.
  - intros fetched s Hs. apply succeeded_inv in Hs as (res & -> & Hok & Hjson).
    handler_unfold. now rewrite Hok, Hjson.
  - intros fetched s Hs. apply succeeded_inv in Hs as (res & -> & Hok & Hjson).
    handler_unfold. now rewrite Hok, Hjson.
Qed.

(** The prompt ["dragons"] of the specification, typed with spaces around
    it: the Story is the result on display and the first of the
    collection. *)
Lemma generate_success_witness :
  let s := Sample.styled_typed (u " dragons ") in
  trim (Styled.prompt s) <> [] /\
  Spec.succeeded (Sample.created 200 (POST_story (trim (Styled.prompt s))))
    = Some Sample.dragons /\
  Styled.onGenerate (Sample.created 200) s =
  (Fulfilled tt,
   {| Styled.prompt := []; Styled.loading := false; Styled.fetching := false;
      Styled.error := None;
      Styled.stories := [Sample.dragons; Sample.cats; Sample.dogs];
      Styled.generated := Some Sample.dragons; Styled.query := [] |},
   [Fetch (POST_story (u "dragons"))]).
Proof.
  intros s.
  assert (Hp : trim (Styled.prompt s) <> []) by (vm_compute; discriminate).
  assert (Hs : Spec.succeeded
                 (Sample.created 200 (POST_story (trim (Styled.prompt s))))
               = Some Sample.dragons) by reflexivity.
  split; [exact Hp|]. split; [exact Hs|].
  exact (proj1 (generate_success (Sample.created 200) Sample.dragons) s Hp Hs).
Defined.

(** What [onGenerate] leaves behind when the settled call is a failure of
    any kind: only the error and the loading flag are written, and the
    error is a non-empty text. *)
Lemma styled_settled_failure fetched (s : Styled.State) :
  Spec.succeeded fetched = None ->
  exists msg, msg <> [] /\
    Styled.onGenerate_settled fetched s =
    (Fulfilled tt,
     {| Styled.prompt := Styled.prompt s; Styled.loading := false;
        Styled.fetching := Styled.fetching s; Styled.error := Some msg;
        Styled.stories := Styled.stories s;
        Styled.generated := Styled.generated s;
        Styled.query := Styled.query s |},
     []).
Proof.
  intros Hf. handler_unfold.
  destruct fetched as [res|e]; simpl in Hf.
  - destruct (ok res).
    + destruct (json res) as [d|e]; [discriminate|].
      eexists; split; [|reflexivity]. now apply or_else_truthy.
    + destruct (text res) as [body|e];
        (eexists; split; [|reflexivity]); simpl; now apply or_else_truthy.
  - eexists; split; [|reflexivity]. now apply or_else_truthy.
Qed.

Lemma plain_settled_failure fetched (s : Plain.State) :
  Spec.succeeded fetched = None ->
  exists msg, msg <> [] /\
    Plain.generate_settled fetched s =
    (Fulfilled tt,
     {| Plain.prompt := Plain.prompt s; Plain.loading := false;
        Plain.error := Some msg; Plain.stories := Plain.stories s;
        Plain.current := Plain.current s |},
     []).
Proof.
  intros Hf. handler_unfold.
  destruct fetched as [res|e]; simpl in Hf.
  - destruct (ok res).
    + destruct (json res) as [d|e]; [discriminate|].
      eexists; split; [|reflexivity]. now apply or_else_truthy.
    + destruct (text res) as [body|e];
        (eexists; split; [|reflexivity]); simpl; now apply or_else_truthy.
  - eexists; split; [|reflexivity]. now apply or_else_truthy.
Qed.

(** What the first half of a generation does for a prompt that is not
    empty once trimmed. *)
Lemma styled_begin_issues (s : Styled.State) :
  trim (Styled.prompt s) <> [] ->
  Styled.onGenerate_begin s =
  (Fulfilled tt,
   {| Styled.prompt := Styled.prompt s; Styled.loading := true;
      Styled.fetching := Styled.fetching s; Styled.error := None;
      Styled.stories := Styled.stories s; Styled.generated := None;
      Styled.query := Styled.query s |},
   [Fetch (POST_story (trim (Styled.prompt s)))]).
Proof. intros Hp. apply truthy_true in Hp. handler_unfold. now rewrite Hp. Qed.

Lemma plain_begin_issues (s : Plain.State) :
  trim (Plain.prompt s) <> [] ->
  Plain.generate_begin s =
  (Fulfilled tt,
   {| Plain.prompt := Plain.prompt s; Plain.loading := true;
      Plain.error := None; Plain.stories := Plain.stories s;
      Plain.current := [] |},
   [Fetch (POST_story (trim (Plain.prompt s)))]).
Proof. intros Hp. apply truthy_true in Hp. handler_unfold. now rewrite Hp. Qed.

Lemma styled_banner_shows (s : Styled.State) (msg : jsstring) :
  msg <> [] -> Styled.error s = Some msg -> Styled.banner s = Some msg.
Proof.
  intros Hm He. unfold Styled.banner. rewrite He.
  apply truthy_true in Hm. now rewrite Hm.
Qed.

Lemma plain_banner_shows (s : Plain.State) (msg : jsstring) :
  msg <> [] -> Plain.error s = Some msg -> Plain.banner s = Some msg.
Proof.
  intros Hm He. unfold Plain.banner. rewrite He.
  apply truthy_true in Hm. now rewrite Hm.
Qed.

(** The whole call on a response that is not ok. *)
Lemma styled_onGenerate_refused net (s : Styled.State) res body :
  trim (Styled.prompt s) <> [] ->
  net (POST_story (trim (Styled.prompt s))) = Fulfilled res ->
  ok res = false -> text res = Fulfilled body ->
  Styled.onGenerate net s =
  (Fulfilled tt,
   {| Styled.prompt := Styled.prompt s; Styled.loading := false;
      Styled.fetching := Styled.fetching s;
      Styled.error := Some (or_else body Spec.server_error);
      Styled.stories := Styled.stories s; Styled.generated := None;
      Styled.query := Styled.query s |},
   [Fetch (POST_story (trim (Styled.prompt s)))]).
Proof.
  intros Hp Hnet Hok Htext.
  assert (Hse : Spec.server_error <> []) by (vm_compute; discriminate).
  apply truthy_true in Hp. handler_unfold.
  rewrite Hp, Hnet, Hok, Htext. cbn [message].
  now rewrite (or_else_or_else body _ _ Hse).
Qed.

Lemma plain_generate_refused net (s : Plain.State) res body :
  trim (Plain.prompt s) <> [] ->
  net (POST_story (trim (Plain.prompt s))) = Fulfilled res ->
  ok res = false -> text res = Fulfilled body ->
  Plain.generate net s =
  (Fulfilled tt,
   {| Plain.prompt := Plain.prompt s; Plain.loading := false;
      Plain.error := Some (or_else body Spec.server_error);
      Plain.stories := Plain.stories s; Plain.current := [] |},
   [Fetch (POST_story (trim (Plain.prompt s)))]).
Proof.
  intros Hp Hnet Hok Htext.
  assert (Hse : Spec.server_error <> []) by (vm_compute; discriminate).
  apply truthy_true in Hp. handler_unfold.
  rewrite Hp, Hnet, Hok, Htext. cbn [message].
  now rewrite (or_else_or_else body _ _ Hse).
Qed.

(** C2. A generation that fails sets the error, leaves the collection as
    it was and resets the loading flag.  For a response that is not 2xx
    the error is the body text, or ["Server error"] when the body is
    empty; for a network error it is the message of the rejection, or
    ["Failed to generate"] when that is empty.  In each case the error is
    a non-empty text, so the banner shows it.  The last two parts cover
    every failure at the moment the promise settles, whatever the cells
    hold by then. *)
Theorem generate_failure net :
  (forall (s : Styled.State) res body,
     trim (Styled.prompt s) <> [] ->
     net (POST_story (trim (Styled.prompt s))) = Fulfilled res ->
     ok res = false -> text res = Fulfilled body ->
     let msg := or_else body Spec.server_error in
     let s' :=
       {| Styled.prompt := Styled.prompt s; Styled.loading := false;
          Styled.fetching := Styled.fetching s; Styled.error := Some msg;
          Styled.stories := Styled.stories s; Styled.generated := None;
          Styled.query := Styled.query s |} in
     Styled.onGenerate net s =
       (Fulfilled tt, s', [Fetch (POST_story (trim (Styled.prompt s)))]) /\
     Styled.banner s' = Some msg /\
     (body <> [] -> msg = body) /\ (body = [] -> msg = Spec.server_error)) /\
  (forall (s : Styled.State) e,
     trim (Styled.prompt s) <> [] ->
     net (POST_story (trim (Styled.prompt s))) = Rejected e ->
     let msg := or_else (message e) Spec.failed_to_generate in
     let s' :=
       {| Styled.prompt := Styled.prompt s; Styled.loading := false;
          Styled.fetching := Styled.fetching s; Styled.error := Some msg;
          Styled.stories := Styled.stories s; Styled.generated := None;
          Styled.query := Styled.query s |} in
     Styled.onGenerate net s =
       (Fulfilled tt, s', [Fetch (POST_story (trim (Styled.prompt s)))]) /\
     Styled.banner s' = Some msg) /\
  (forall (s : Plain.State) res body,
     trim (Plain.prompt s) <> [] ->
     net (POST_story (trim (Plain.prompt s))) = Fulfilled res ->
     ok res = false -> text res = Fulfilled body ->
     let msg := or_else body Spec.server_error in
     let s' :=
       {| Plain.prompt := Plain.prompt s; Plain.loading := false;
          Plain.error := Some msg; Plain.stories := Plain.stories s;
          Plain.current := [] |} in
     Plain.generate net s =
       (Fulfilled tt, s', [Fetch (POST_story (trim (Plain.prompt s)))]) /\
     Plain.banner s' = Some msg /\
     (body <> [] -> msg = body) /\ (body = [] -> msg = Spec.server_error)) /\
  (forall (s : Plain.State) e,
     trim (Plain.prompt s) <> [] ->
     net (POST_story (trim (Plain.prompt s))) = Rejected e ->
     let msg := or_else (message e) Spec.failed_to_generate in
     let s' :=
       {| Plain.prompt := Plain.prompt s; Plain.loading := false;
          Plain.error := Some msg; Plain.stories := Plain.stories s;
          Plain.current := [] |} in
     Plain.generate net s =
       (Fulfilled tt, s', [Fetch (POST_story (trim (Plain.prompt s)))]) /\
     Plain.banner s' = Some msg) /\
  (forall fetched (s : Styled.State),
     Spec.succeeded fetched = None ->
     let s' := state_of (Styled.onGenerate_settled fetched s) in
     Styled.stories s' = Styled.stories s /\ Styled.loading s' = false /\
     exists msg, msg <> [] /\ Styled.error s' = Some msg /\
                 Styled.banner s' = Some msg) /\
  (forall fetched (s : Plain.State),
     Spec.succeeded fetched = None ->
     let s' := state_of (Plain.generate_settled fetched s) in
     Plain.stories s' = Plain.stories s /\ Plain.loading s' = false /\
     exists msg, msg <> [] /\ Plain.error s' = Some msg /\
                 Plain.banner s' = Some msg).
Proof.
  assert (Hse : Spec.server_error <> []) by (vm_compute; discriminate).
  assert (Hfg : Spec.failed_to_generate <> []) by (vm_compute; discriminate).
  split; [|split; [|split; [|split; [|split]]]].
  - intros s res body Hp Hnet Hok Htext msg s'. repeat split.
    + now apply (styled_onGenerate_refused net s res body).
    + apply styled_banner_shows; [now apply or_else_truthy | reflexivity].
    + apply or_else_nonempty.
    + now intros ->.
  - intros s e Hp Hnet msg s'. split.
    + apply truthy_true in Hp. handler_unfold. now rewrite Hp, Hnet.
    + apply styled_banner_shows; [now apply or_else_truthy | reflexivity].
  - intros s res body Hp Hnet Hok Htext msg s'. repeat split.
    + now apply (plain_generate_refused net s res body).
    + apply plain_banner_shows; [now apply or_else_truthy | reflexivity].
    + apply or_else_nonempty.
    + now intros ->.
  - intros s e Hp Hnet msg s'. split.
    + apply truthy_true in Hp. handler_unfold. now rewrite Hp, Hnet.
    + apply plain_banner_shows; [now apply or_else_truthy | reflexivity].
  - intros fetched s Hf s'.
    destruct (styled_settled_failure fetched s Hf) as (msg & Hm & Heq).
    subst s'. rewrite Heq. repeat split. exists msg. repeat split; [exact Hm|].
    now apply styled_banner_shows.
  - intros fetched s Hf s'.
    destruct (plain_settled_failure fetched s Hf) as (msg & Hm & Heq).
    subst s'. rewrite Heq. repeat split. exists msg. repeat split; [exact Hm|].
    now apply plain_banner_shows.
Qed.

(** The failing call of the specification: a 500 response with the body
    ["boom"].  The banner shows ["boom"] and the collection is the one
    from before the call. *)
Lemma generate_failure_witness :
  let s := Sample.styled_typed (u "dragons") in
  let net := Sample.refused 500 (u "boom") in
  trim (Styled.prompt s) <> [] /\
  Styled.error (state_of (Styled.onGenerate net s)) = Some (u "boom") /\
  Styled.banner (state_of (Styled.onGenerate net s)) = Some (u "boom") /\
  Styled.stories (state_of (Styled.onGenerate net s)) = Styled.stories s /\
  Styled.loading (state_of (Styled.onGenerate net s)) = false.
Proof.
  intros s net.
  assert (Hp : trim (Styled.prompt s) <> []) by (vm_compute; discriminate).
  split; [exact Hp|].
  destruct (proj1 (generate_failure net) s _ (u "boom") Hp eq_refl eq_refl eq_refl)
    as (Hrun & Hbanner & _ & _).
  rewrite Hrun. repeat split.
Defined.

(** The whole call, for a prompt that is not empty once trimmed, is the
    first half followed by the second half on the cells the first half
    left. *)
Lemma styled_onGenerate_run net (s : Styled.State) :
  trim (Styled.prompt s) <> [] ->
  let req := POST_story (trim (Styled.prompt s)) in
  let s1 := state_of (Styled.onGenerate_begin s) in
  Styled.onGenerate net s =
  (fst (fst (Styled.onGenerate_settled (net req) s1)),
   state_of (Styled.onGenerate_settled (net req) s1),
   Fetch req :: effects_of (Styled.onGenerate_settled (net req) s1)).
Proof.
  intros Hp req s1. rewrite styled_onGenerate_cut.
  unfold mbind at 1. unfold Handler_bind. subst s1.
  rewrite (styled_begin_issues s Hp).
  apply truthy_true in Hp. rewrite Hp. fold req. unfold state_of, effects_of.
  cbn [fst snd]. now destruct (Styled.onGenerate_settled _ _) as [[r s2] w].
Qed.

Lemma plain_generate_run net (s : Plain.State) :
  trim (Plain.prompt s) <> [] ->
  let req := POST_story (trim (Plain.prompt s)) in
  let s1 := state_of (Plain.generate_begin s) in
  Plain.generate net s =
  (fst (fst (Plain.generate_settled (net req) s1)),
   state_of (Plain.generate_settled (net req) s1),
   Fetch req :: effects_of (Plain.generate_settled (net req) s1)).
Proof.
  intros Hp req s1. rewrite plain_generate_cut.
  unfold mbind at 1. unfold Handler_bind. subst s1.
  rewrite (plain_begin_issues s Hp).
  apply truthy_true in Hp. rewrite Hp. fold req. unfold state_of, effects_of.
  cbn [fst snd]. now destruct (Plain.generate_settled _ _) as [[r s2] w].
Qed.

(** C10. A generation with a prompt that is not empty once trimmed first
    clears the result on display and the error and sets the loading flag,
    in the step that issues the request.  If the call then fails, in any
    way, no result is on display and the prompt input is what it was; if
    it succeeds the prompt input is empty. *)
Theorem generate_clears_then_issues
    net (s : Styled.State) (p : Plain.State)
    (Hs : trim (Styled.prompt s) <> []) (Hp : trim (Plain.prompt p) <> []) :
  let sreq := POST_story (trim (Styled.prompt s)) in
  let preq := POST_story (trim (Plain.prompt p)) in
  (Styled.onGenerate_begin s =
     (Fulfilled tt,
      {| Styled.prompt := Styled.prompt s; Styled.loading := true;
         Styled.fetching := Styled.fetching s; Styled.error := None;
         Styled.stories := Styled.stories s; Styled.generated := None;
         Styled.query := Styled.query s |},
      [Fetch sreq]) /\
   (Spec.succeeded (net sreq) = None ->
    Styled.generated (state_of (Styled.onGenerate net s)) = None /\
    Styled.prompt (state_of (Styled.onGenerate net s)) = Styled.prompt s) /\
   (forall data, Spec.succeeded (net sreq) = Some data ->
    Styled.prompt (state_of (Styled.onGenerate net s)) = [])) /\
  (Plain.generate_begin p =
     (Fulfilled tt,
      {| Plain.prompt := Plain.prompt p; Plain.loading := true;
         Plain.error := None; Plain.stories := Plain.stories p;
         Plain.current := [] |},
      [Fetch preq]) /\
   (Spec.succeeded (net preq) = None ->
    Plain.current (state_of (Plain.generate net p)) = [] /\
    Plain.prompt (state_of (Plain.generate net p)) = Plain.prompt p) /\
   (forall data, Spec.succeeded (net preq) = Some data ->
    Plain.prompt (state_of (Plain.generate net p)) = [])).
Proof.
  intros sreq preq. split; (split; [|split]).
  - now apply styled_begin_issues.
  - intros Hf. rewrite (styled_onGenerate_run net s Hs). fold sreq.
    destruct (styled_settled_failure (net sreq)
                (state_of (Styled.onGenerate_begin s)) Hf) as (msg & _ & ->).
    rewrite (styled_begin_issues s Hs). now split.
  - intros data Hd.
    now rewrite (styled_onGenerate_succeeds net data s Hs Hd).
  - now apply plain_begin_issues.
  - intros Hf. rewrite (plain_generate_run net p Hp). fold preq.
    destruct (plain_settled_failure (net preq)
                (state_of (Plain.generate_begin p)) Hf) as (msg & _ & ->).
    rewrite (plain_begin_issues p Hp). now split.
  - intros data Hd.
    now rewrite (plain_generate_succeeds net data p Hp Hd).
Qed.

(** After a result was on display, a failing attempt (no backend) leaves
    none on display and keeps the typed prompt; a succeeding one empties
    the prompt input. *)
Lemma generate_clears_then_issues_witness :
  let s := Sample.styled_typed (u "dragons") in
  let p := Sample.plain_typed (u "dragons") in
  Styled.generated s = Some Sample.cats /\
  Styled.generated (state_of (Styled.onGenerate Sample.unreachable s)) = None /\
  Styled.prompt (state_of (Styled.onGenerate Sample.unreachable s)) = u "dragons" /\
  Plain.current (state_of (Plain.generate Sample.unreachable p)) = [] /\
  Plain.prompt (state_of (Plain.generate Sample.unreachable p)) = u "dragons".
Proof.
  intros s p.
  assert (Hs : trim (Styled.prompt s) <> []) by (vm_compute; discriminate).
  assert (Hp : trim (Plain.prompt p) <> []) by (vm_compute; discriminate).
  destruct (generate_clears_then_issues Sample.unreachable s p Hs Hp)
    as [(_ & Hsf & _) (_ & Hpf & _)].
  destruct (Hsf eq_refl) as [Hg Hpr]. destruct (Hpf eq_refl) as [Hc Hpp].
  split; [reflexivity|]. split; [exact Hg|]. split; [exact Hpr|].
  split; [exact Hc | exact Hpp].
Defined.

(** A handler that writes nothing and does nothing leaves the mounted
    component as it is. *)
Lemma run_noop {S : Type} (h : Handler S unit) (a : App S) r :
  h (view a) = (r, view a, []) -> run h a = a.
Proof.
  intros Hh. unfold run. rewrite Hh. destruct a as [v pl pg l].
  cbn [view pending_list pending_generate log List.filter length].
  now rewrite !Nat.add_0_r, app_nil_r.
Qed.

(** C6. With a prompt that is empty or white space only, the generate
    operation does nothing: the handler returns at once, issues no
    request and leaves every cell as it was.  So does each of its
    triggers, the Enter key and the (disabled) submit button, on the
    mounted component. *)
Theorem blank_prompt_is_noop
    net (a : App Styled.State) (b : App Plain.State)
    (Ha : Forall (fun c => is_white_space c = true) (Styled.prompt (view a)))
    (Hb : Forall (fun c => is_white_space c = true) (Plain.prompt (view b))) :
  (Styled.onGenerate net (view a) = (Fulfilled tt, view a, []) /\
   Styled.step a (Styled.KeyDown Enter) = a /\
   Styled.step a Styled.ClickSubmit = a) /\
  (Plain.generate net (view b) = (Fulfilled tt, view b, []) /\
   Plain.step b (Plain.KeyDown Enter) = b /\
   Plain.step b Plain.ClickSubmit = b).
Proof.
  apply trim_nil_iff in Ha, Hb.
  split; (split; [|split]).
  - handler_unfold. now rewrite Ha.
  - unfold Styled.step, Styled.handler_of. rewrite decide_True by reflexivity.
    apply (run_noop _ _ (Fulfilled tt)). handler_unfold. now rewrite Ha.
  - unfold Styled.step, Styled.handler_of, Styled.submit_disabled.
    rewrite Ha, orb_true_r. now apply (run_noop _ _ (Fulfilled tt)).
  - handler_unfold. now rewrite Hb.
  - unfold Plain.step, Plain.handler_of. rewrite decide_True by reflexivity.
    apply (run_noop _ _ (Fulfilled tt)). handler_unfold. now rewrite Hb.
  - unfold Plain.step, Plain.handler_of, Plain.submit_disabled.
    rewrite Hb, orb_true_r. now apply (run_noop _ _ (Fulfilled tt)).
Qed.

(** A prompt of a space, a tab and a line feed. *)
Lemma blank_prompt_is_noop_witness :
  let a := Styled.step Styled.mounted (Styled.ChangePrompt [32; 9; 10]) in
  let b := Plain.step Plain.mounted (Plain.ChangePrompt [32; 9; 10]) in
  Forall (fun c => is_white_space c = true) (Styled.prompt (view a)) /\
  Forall (fun c => is_white_space c = true) (Plain.prompt (view b)) /\
  Styled.onGenerate (Sample.created 200) (view a) = (Fulfilled tt, view a, []) /\
  Styled.step a (Styled.KeyDown Enter) = a /\
  Plain.step b (Plain.KeyDown Enter) = b.
Proof.
  intros a b.
  assert (Ha : Forall (fun c => is_white_space c = true) (Styled.prompt (view a)))
    by (repeat constructor).
  assert (Hb : Forall (fun c => is_white_space c = true) (Plain.prompt (view b)))
    by (repeat constructor).
  destruct (blank_prompt_is_noop (Sample.created 200) a b Ha Hb)
    as [(H1 & H2 & _) (_ & H3 & _)].
  split; [exact Ha|]. split; [exact Hb|]. split; [exact H1|].
  split; [exact H2 | exact H3].
Defined.

(** ** Listing *)

Lemma styled_list_settled_success fetched data (s : Styled.State) :
  Spec.succeeded fetched = Some data ->
  Styled.loadStories_settled fetched s =
  (Fulfilled tt,
   {| Styled.prompt := Styled.prompt s; Styled.loading := Styled.loading s;
      Styled.fetching := false; Styled.error := Styled.error s;
      Styled.stories := data; Styled.generated := Styled.generated s;
      Styled.query := Styled.query s |},
   []).
Proof.
  intros Hs. apply succeeded_inv in Hs as (res & -> & Hok & Hjson).
  handler_unfold. now rewrite Hok, Hjson.
Qed.

Lemma plain_list_settled_success fetched data (s : Plain.State) :
  Spec.succeeded fetched = Some data ->
  Plain.loadStories_settled fetched s =
  (Fulfilled tt,
   {| Plain.prompt := Plain.prompt s; Plain.loading := Plain.loading s;
      Plain.error := Plain.error s; Plain.stories := data;
      Plain.current := Plain.current s |},
   []).
Proof.
  intros Hs. apply succeeded_inv in Hs as (res & -> & Hok & Hjson).
  handler_unfold. now rewrite Hok, Hjson.
Qed.

(** The error a failing listing call throws inside its [try] block. *)
Lemma listing_throws (fetched : Settled (Response (list Story.t))) :
  Spec.succeeded fetched = None ->
  exists e,
    (forall e0, fetched = Rejected e0 -> e = e0) /\
    (forall res, fetched = Fulfilled res -> ok res = false ->
                 e = Spec.failed_to_load) /\
    (forall (s : Styled.State),
       Styled.loadStories_settled fetched s =
       (Fulfilled tt,
        {| Styled.prompt := Styled.prompt s; Styled.loading := Styled.loading s;
           Styled.fetching := false; Styled.error := Styled.error s;
           Styled.stories := Styled.stories s;
           Styled.generated := Styled.generated s;
           Styled.query := Styled.query s |},
        [ConsoleError e])) /\
    (forall (s : Plain.State),
       Plain.loadStories_settled fetched s =
       (Fulfilled tt, s, [ConsoleError e])).
Proof.
  intros Hf. destruct fetched as [res|e]; simpl in Hf.
  - destruct (ok res) eqn:Hok.
    + destruct (json res) as [d|e] eqn:Hjson; [discriminate|].
      exists e. repeat split; try congruence.
      * intros s. handler_unfold. now rewrite Hok, Hjson.
      * intros s. handler_unfold. now rewrite Hok, Hjson.
    + exists Spec.failed_to_load. repeat split; try congruence.
      * intros s. handler_unfold. now rewrite Hok.
      * intros s. handler_unfold. now rewrite Hok.
  - exists e. repeat split; congruence.
Qed.

(** The whole listing call is its request followed by the second half. *)
Lemma styled_loadStories_run net (s : Styled.State) :
  let s1 := state_of (Styled.loadStories_begin s) in
  Styled.loadStories net s =
  (fst (fst (Styled.loadStories_settled (net GET_story) s1)),
   state_of (Styled.loadStories_settled (net GET_story) s1),
   Fetch GET_story :: effects_of (Styled.loadStories_settled (net GET_story) s1)).
Proof.
  intros s1. rewrite styled_loadStories_cut.
  unfold mbind at 1. unfold Handler_bind. subst s1.
  unfold state_of, effects_of.
  destruct (Styled.loadStories_begin s) as [[r0 s0] w0] eqn:E.
  handler_unfold in E. injection E as <- <- <-. cbn [fst snd].
  now destruct (Styled.loadStories_settled _ _) as [[r s2] w].
Qed.

Lemma plain_loadStories_run net (s : Plain.State) :
  Plain.loadStories net s =
  (fst (fst (Plain.loadStories_settled (net GET_story) s)),
   state_of (Plain.loadStories_settled (net GET_story) s),
   Fetch GET_story :: effects_of (Plain.loadStories_settled (net GET_story) s)).
Proof.
  rewrite plain_loadStories_cut.
  unfold mbind at 1. unfold Handler_bind.
  unfold state_of, effects_of.
  destruct (Plain.loadStories_begin s) as [[r0 s0] w0] eqn:E.
  handler_unfold in E. injection E as <- <- <-. cbn [fst snd].
  now destruct (Plain.loadStories_settled _ _) as [[r s2] w].
Qed.

(** C5. A listing call that succeeds with the array [data] issues the one
    GET and replaces the whole collection by [data]: the same entries,
    as many, in the order received.  Nothing else changes (the styled
    component's fetching flag ends false).  The last two parts say the
    same of the moment the promise settles. *)
Theorem list_success net (data : list Story.t)
    (Hok : Spec.succeeded (net GET_story) = Some data) :
  (forall s : Styled.State,
     Styled.loadStories net s =
     (Fulfilled tt,
      {| Styled.prompt := Styled.prompt s; Styled.loading := Styled.loading s;
         Styled.fetching := false; Styled.error := Styled.error s;
         Styled.stories := data; Styled.generated := Styled.generated s;
         Styled.query := Styled.query s |},
      [Fetch GET_story]) /\
     length (Styled.stories (state_of (Styled.loadStories net s))) = length data) /\
  (forall s : Plain.State,
     Plain.loadStories net s =
     (Fulfilled tt,
      {| Plain.prompt := Plain.prompt s; Plain.loading := Plain.loading s;
         Plain.error := Plain.error s; Plain.stories := data;
         Plain.current := Plain.current s |},
      [Fetch GET_story]) /\
     length (Plain.stories (state_of (Plain.loadStories net s))) = length data) /\
  (forall s : Styled.State,
     Styled.stories (state_of (Styled.loadStories_settled (net GET_story) s)) = data) /\
  (forall s : Plain.State,
     Plain.stories (state_of (Plain.loadStories_settled (net GET_story) s)) = data).
Proof.
  split; [|split; [|split]].
  - intros s.
    assert (E : Styled.loadStories net s =
                (Fulfilled tt,
                 {| Styled.prompt := Styled.prompt s;
                    Styled.loading := Styled.loading s;
                    Styled.fetching := false; Styled.error := Styled.error s;
                    Styled.stories := data;
                    Styled.generated := Styled.generated s;
                    Styled.query := Styled.query s |},
                 [Fetch GET_story])).
    { rewrite styled_loadStories_run.
      now rewrite (styled_list_settled_success _ data _ Hok). }
    now rewrite E.
  - intros s.
    assert (E : Plain.loadStories net s =
                (Fulfilled tt,
                 {| Plain.prompt := Plain.prompt s;
                    Plain.loading := Plain.loading s;
                    Plain.error := Plain.error s; Plain.stories := data;
                    Plain.current := Plain.current s |},
                 [Fetch GET_story])).
    { rewrite plain_loadStories_run.
      now rewrite (plain_list_settled_success _ data _ Hok). }
    now rewrite E.
  - intros s. now rewrite (styled_list_settled_success _ data _ Hok).
  - intros s. now rewrite (plain_list_settled_success _ data _ Hok).
Qed.

(** A listing of two stories over a collection of one. *)
Lemma list_success_witness :
  let net := Sample.listed 200 [Sample.dogs; Sample.cats] in
  let s := state_of (Styled.setStories (fun _ => [Sample.dragons]) Styled.initial) in
  Spec.succeeded (net GET_story) = Some [Sample.dogs; Sample.cats] /\
  Styled.stories s = [Sample.dragons] /\
  Styled.stories (state_of (Styled.loadStories net s)) = [Sample.dogs; Sample.cats] /\
  length (Styled.stories (state_of (Styled.loadStories net s))) = 2%nat.
Proof.
  intros net s.
  destruct (list_success net [Sample.dogs; Sample.cats] eq_refl) as (Hs & _).
  destruct (Hs s) as [Hrun Hlen].
  split; [reflexivity|]. split; [reflexivity|]. split; [now rewrite Hrun | exact Hlen].
Defined.

(** C7. A listing call that fails, by a network error, a response that is
    not ok or a body that does not decode, logs the error to the console
    and does nothing else: prompt, loading flag, error, result on display,
    query and collection are what they were, and no error is set for the
    user.  (The styled component's fetching flag, raised for the duration
    of the call, ends false: a call started with the flag down leaves the
    cells exactly as they were.)  The logged error is the rejection of the
    network error, and ["Failed to load stories"] for a response that is
    not ok. *)
Theorem list_failure net (Hf : Spec.succeeded (net GET_story) = None) :
  exists e,
    (forall e0, net GET_story = Rejected e0 -> e = e0) /\
    (forall res, net GET_story = Fulfilled res -> ok res = false ->
                 e = Spec.failed_to_load) /\
    (forall s : Styled.State,
       Styled.loadStories net s =
       (Fulfilled tt,
        {| Styled.prompt := Styled.prompt s; Styled.loading := Styled.loading s;
           Styled.fetching := false; Styled.error := Styled.error s;
           Styled.stories := Styled.stories s;
           Styled.generated := Styled.generated s;
           Styled.query := Styled.query s |},
        [Fetch GET_story; ConsoleError e]) /\
       (Styled.fetching s = false ->
        state_of (Styled.loadStories net s) = s)) /\
    (forall s : Plain.State,
       Plain.loadStories net s =
       (Fulfilled tt, s, [Fetch GET_story; ConsoleError e])).
Proof.
  destruct (listing_throws (net GET_story) Hf) as (e & Hnet & Hres & Hs & Hp).
  exists e. split; [exact Hnet|]. split; [exact Hres|]. split.
  - intros s.
    assert (E : Styled.loadStories net s =
                (Fulfilled tt,
                 {| Styled.prompt := Styled.prompt s;
                    Styled.loading := Styled.loading s;
                    Styled.fetching := false; Styled.error := Styled.error s;
                    Styled.stories := Styled.stories s;
                    Styled.generated := Styled.generated s;
                    Styled.query := Styled.query s |},
                 [Fetch GET_story; ConsoleError e])).
    { rewrite styled_loadStories_run. now rewrite Hs. }
    split; [exact E|]. intros Hfalse. rewrite E. destruct s. simpl in *.
    now subst.
  - intros s. rewrite plain_loadStories_run. now rewrite Hp.
Qed.

(** A listing against no backend, with an error of an earlier generation
    on display. *)
Lemma list_failure_witness :
  let s := state_of (Styled.setError (Some (u "boom")) (Sample.styled_typed (u "dragons"))) in
  Spec.succeeded (Sample.unreachable (A := list Story.t) GET_story) = None /\
  Styled.loadStories Sample.unreachable s =
  (Fulfilled tt, s,
   [Fetch GET_story; ConsoleError (new_Error (u "Failed to fetch"))]).
Proof.
  intros s. split; [reflexivity|].
  destruct (list_failure Sample.unreachable eq_refl) as (e & Hnet & _ & Hs & _).
  rewrite (proj1 (Hs s)). now rewrite (Hnet _ eq_refl).
Defined.

(** ** Status codes *)

(** C8 as stated fails twice.  A 201 (any 2xx) response whose body decodes
    is a success, for generation and for listing alike: no error is set
    and the collection takes the decoded body.  And a response that is
    not ok with an empty body gives the message ["Server error"], not the
    (empty) body. *)
Lemma only_200_succeeds_counterexample :
  let s := Sample.styled_typed (u "dragons") in
  (201 <> 200)%Z /\
  Styled.onGenerate (Sample.created 201) s =
  (Fulfilled tt,
   {| Styled.prompt := []; Styled.loading := false; Styled.fetching := false;
      Styled.error := None;
      Styled.stories := [Sample.dragons; Sample.cats; Sample.dogs];
      Styled.generated := Some Sample.dragons; Styled.query := [] |},
   [Fetch (POST_story (u "dragons"))]) /\
  Styled.stories (state_of (Styled.loadStories (Sample.listed 201 [Sample.dragons]) s))
    = [Sample.dragons] /\
  effects_of (Styled.loadStories (Sample.listed 201 [Sample.dragons]) s)
    = [Fetch GET_story] /\
  Styled.error (state_of (Styled.onGenerate (Sample.refused 500 []) s))
    = Some (u "Server error") /\
  u "Server error" <> [].
Proof.
  intros s. split; [discriminate|]. repeat split. vm_compute. discriminate.
Qed.

(** The whole call on a response that is not ok, whatever its body: the
    error is a non-empty text, read from the body when there is one. *)
Lemma styled_onGenerate_not_ok net (s : Styled.State) (res : Response Story.t) :
  trim (Styled.prompt s) <> [] ->
  net (POST_story (trim (Styled.prompt s))) = Fulfilled res ->
  ok res = false ->
  exists msg, msg <> [] /\
    Styled.onGenerate net s =
    (Fulfilled tt,
     {| Styled.prompt := Styled.prompt s; Styled.loading := false;
        Styled.fetching := Styled.fetching s; Styled.error := Some msg;
        Styled.stories := Styled.stories s; Styled.generated := None;
        Styled.query := Styled.query s |},
     [Fetch (POST_story (trim (Styled.prompt s)))]) /\
    (forall body, text res = Fulfilled body ->
                  msg = or_else body Spec.server_error) /\
    (forall e, text res = Rejected e ->
               msg = or_else (message e) Spec.failed_to_generate).
Proof.
  intros Hp Hnet Hok.
  assert (Hse : Spec.server_error <> []) by (vm_compute; discriminate).
  assert (Hfg : Spec.failed_to_generate <> []) by (vm_compute; discriminate).
  destruct (text res) as [body|e] eqn:Htext.
  - exists (or_else body Spec.server_error). split; [now apply or_else_truthy|].
    split; [now apply (styled_onGenerate_refused net s res body)|].
    split; [now intros ? [= <-] | discriminate].
  - exists (or_else (message e) Spec.failed_to_generate).
    split; [now apply or_else_truthy|]. split.
    + apply truthy_true in Hp. handler_unfold. now rewrite Hp, Hnet, Hok, Htext.
    + split; [discriminate | now intros ? [= <-]].
Qed.

Lemma plain_generate_not_ok net (s : Plain.State) (res : Response Story.t) :
  trim (Plain.prompt s) <> [] ->
  net (POST_story (trim (Plain.prompt s))) = Fulfilled res ->
  ok res = false ->
  exists msg, msg <> [] /\
    Plain.generate net s =
    (Fulfilled tt,
     {| Plain.prompt := Plain.prompt s; Plain.loading := false;
        Plain.error := Some msg; Plain.stories := Plain.stories s;
        Plain.current := [] |},
     [Fetch (POST_story (trim (Plain.prompt s)))]) /\
    (forall body, text res = Fulfilled body ->
                  msg = or_else body Spec.server_error) /\
    (forall e, text res = Rejected e ->
               msg = or_else (message e) Spec.failed_to_generate).
Proof.
  intros Hp Hnet Hok.
  assert (Hse : Spec.server_error <> []) by (vm_compute; discriminate).
  assert (Hfg : Spec.failed_to_generate <> []) by (vm_compute; discriminate).
  destruct (text res) as [body|e] eqn:Htext.
  - exists (or_else body Spec.server_error). split; [now apply or_else_truthy|].
    split; [now apply (plain_generate_refused net s res body)|].
    split; [now intros ? [= <-] | discriminate].
  - exists (or_else (message e) Spec.failed_to_generate).
    split; [now apply or_else_truthy|]. split.
    + apply truthy_true in Hp. handler_unfold. now rewrite Hp, Hnet, Hok, Htext.
    + split; [discriminate | now intros ? [= <-]].
Qed.

(** C8, amended. A response whose status is outside 200..299 is a failure
    for both calls, whatever its body.  The listing call logs
    ["Failed to load stories"], keeps the collection and every other
    cell, and sets no error.  The generation call issues its one POST and
    ends in the failure state: a non-empty error is set, no result is on
    display, the collection and the prompt are kept and the loading flag
    is down.  The error is the response body when the body is not empty,
    ["Server error"] when it is empty, and the message of the read error
    (or ["Failed to generate"]) when the body cannot be read. *)
Theorem non_2xx_is_failure :
  (forall net (res : Response (list Story.t)),
     net GET_story = Fulfilled res ->
     (status res < 200 \/ 299 < status res)%Z ->
     Spec.succeeded (net GET_story) = None /\
     (forall s : Styled.State,
        Styled.loadStories net s =
        (Fulfilled tt,
         {| Styled.prompt := Styled.prompt s; Styled.loading := Styled.loading s;
            Styled.fetching := false; Styled.error := Styled.error s;
            Styled.stories := Styled.stories s;
            Styled.generated := Styled.generated s;
            Styled.query := Styled.query s |},
         [Fetch GET_story; ConsoleError Spec.failed_to_load])) /\
     (forall s : Plain.State,
        Plain.loadStories net s =
        (Fulfilled tt, s, [Fetch GET_story; ConsoleError Spec.failed_to_load]))) /\
  (forall net (res : Response Story.t),
     (status res < 200 \/ 299 < status res)%Z ->
     Spec.succeeded (Fulfilled res) = None /\
     (forall s : Styled.State,
        trim (Styled.prompt s) <> [] ->
        net (POST_story (trim (Styled.prompt s))) = Fulfilled res ->
        exists msg, msg <> [] /\
          Styled.onGenerate net s =
          (Fulfilled tt,
           {| Styled.prompt := Styled.prompt s; Styled.loading := false;
              Styled.fetching := Styled.fetching s; Styled.error := Some msg;
              Styled.stories := Styled.stories s; Styled.generated := None;
              Styled.query := Styled.query s |},
           [Fetch (POST_story (trim (Styled.prompt s)))]) /\
          (forall body, text res = Fulfilled body ->
             msg = or_else body Spec.server_error /\
             (body <> [] -> msg = body) /\
             (body = [] -> msg = Spec.server_error)) /\
          (forall e, text res = Rejected e ->
             msg = or_else (message e) Spec.failed_to_generate)) /\
     (forall s : Plain.State,
        trim (Plain.prompt s) <> [] ->
        net (POST_story (trim (Plain.prompt s))) = Fulfilled res ->
        exists msg, msg <> [] /\
          Plain.generate net s =
          (Fulfilled tt,
           {| Plain.prompt := Plain.prompt s; Plain.loading := false;
              Plain.error := Some msg; Plain.stories := Plain.stories s;
              Plain.current := [] |},
           [Fetch (POST_story (trim (Plain.prompt s)))]) /\
          (forall body, text res = Fulfilled body ->
             msg = or_else body Spec.server_error /\
             (body <> [] -> msg = body) /\
             (body = [] -> msg = Spec.server_error)) /\
          (forall e, text res = Rejected e ->
             msg = or_else (message e) Spec.failed_to_generate))).
Proof.
  split.
  - intros net res Hnet Hst. apply not_ok_status in Hst.
    assert (Hf : Spec.succeeded (net GET_story) = None)
      by (rewrite Hnet; now apply not_ok_fails).
    destruct (listing_throws (net GET_story) Hf) as (e & _ & He & Hs & Hp).
    rewrite (He res Hnet Hst) in Hs, Hp. split; [exact Hf|]. split.
    + intros s. now rewrite styled_loadStories_run, Hs.
    + intros s. now rewrite plain_loadStories_run, Hp.
  - intros net res Hst. apply not_ok_status in Hst.
    split; [now apply not_ok_fails|]. split.
    + intros s Hp Hnet.
      destruct (styled_onGenerate_not_ok net s res Hp Hnet Hst)
        as (msg & Hm & Hrun & Hbody & Herr).
      exists msg. split; [exact Hm|]. split; [exact Hrun|]. split; [|exact Herr].
      intros body Htext. rewrite (Hbody body Htext). split; [reflexivity|].
      split; [apply or_else_nonempty | now intros ->].
    + intros s Hp Hnet.
      destruct (plain_generate_not_ok net s res Hp Hnet Hst)
        as (msg & Hm & Hrun & Hbody & Herr).
      exists msg. split; [exact Hm|]. split; [exact Hrun|]. split; [|exact Herr].
      intros body Htext. rewrite (Hbody body Htext). split; [reflexivity|].
      split; [apply or_else_nonempty | now intros ->].
Qed.

(** The 500 response with the body ["boom"], and a 500 response with an
    empty body: both are failures that keep the collection. *)
Lemma non_2xx_is_failure_witness :
  let s := Sample.styled_typed (u "dragons") in
  let boom := Sample.refused (A := Story.t) 500 (u "boom") in
  let empty := Sample.refused (A := Story.t) 500 [] in
  (500 < 200 \/ 299 < 500)%Z /\
  trim (Styled.prompt s) <> [] /\
  Styled.error (state_of (Styled.onGenerate boom s)) = Some (u "boom") /\
  Styled.stories (state_of (Styled.onGenerate boom s)) = Styled.stories s /\
  Styled.error (state_of (Styled.onGenerate empty s)) = Some (u "Server error") /\
  Styled.stories (state_of (Styled.onGenerate empty s)) = Styled.stories s /\
  Styled.prompt (state_of (Styled.onGenerate empty s)) = Styled.prompt s.
Proof.
  intros s boom empty.
  assert (Hst : (500 < 200 \/ 299 < 500)%Z) by (right; lia).
  assert (Hp : trim (Styled.prompt s) <> []) by (vm_compute; discriminate).
  split; [exact Hst|]. split; [exact Hp|].
  destruct (proj1 (proj2 (proj2 non_2xx_is_failure boom
                 {| status := 500; text := Fulfilled (u "boom");
                    json := Rejected (new_Error (u "Unexpected token")) |} Hst))
              s Hp eq_refl) as (m1 & _ & Hrun1 & Hb1 & _).
  destruct (proj1 (proj2 (proj2 non_2xx_is_failure empty
                 {| status := 500; text := Fulfilled [];
                    json := Rejected (new_Error (u "Unexpected token")) |} Hst))
              s Hp eq_refl) as (m2 & _ & Hrun2 & Hb2 & _).
  destruct (Hb1 _ eq_refl) as (-> & _ & _).
  destruct (Hb2 _ eq_refl) as (-> & _ & _).
  rewrite Hrun1, Hrun2. repeat split.
Defined.

(** ** Repeated submission *)

(** The submit button is disabled while the loading flag is set: a click
    on it does nothing. *)
Lemma styled_click_while_loading (a : App Styled.State) :
  Styled.loading (view a) = true -> Styled.step a Styled.ClickSubmit = a.
Proof.
  intros Hl. unfold Styled.step, Styled.handler_of, Styled.submit_disabled.
  rewrite Hl. now apply (run_noop _ _ (Fulfilled tt)).
Qed.

Lemma plain_click_while_loading (a : App Plain.State) :
  Plain.loading (view a) = true -> Plain.step a Plain.ClickSubmit = a.
Proof.
  intros Hl. unfold Plain.step, Plain.handler_of, Plain.submit_disabled.
  rewrite Hl. now apply (run_noop _ _ (Fulfilled tt)).
Qed.

(** The key handler of the input has no such guard: Enter runs the first
    half of the generation whatever the loading flag says, so with a
    prompt that is not empty once trimmed one more request is issued. *)
Lemma styled_enter_issues (a : App Styled.State) :
  trim (Styled.prompt (view a)) <> [] ->
  pending_generate (Styled.step a (Styled.KeyDown Enter)) = S (pending_generate a) /\
  log (Styled.step a (Styled.KeyDown Enter)) =
  log a ++ [Fetch (POST_story (trim (Styled.prompt (view a))))].
Proof.
  intros Hp. unfold Styled.step, Styled.handler_of, run.
  rewrite decide_True by reflexivity. rewrite (styled_begin_issues _ Hp).
  cbn [pending_generate log List.filter is_POST length]. split; [lia | reflexivity].
Qed.

Lemma plain_enter_issues (a : App Plain.State) :
  trim (Plain.prompt (view a)) <> [] ->
  pending_generate (Plain.step a (Plain.KeyDown Enter)) = S (pending_generate a) /\
  log (Plain.step a (Plain.KeyDown Enter)) =
  log a ++ [Fetch (POST_story (trim (Plain.prompt (view a))))].
Proof.
  intros Hp. unfold Plain.step, Plain.handler_of, run.
  rewrite decide_True by reflexivity. rewrite (plain_begin_issues _ Hp).
  cbn [pending_generate log List.filter is_POST length]. split; [lia | reflexivity].
Qed.

(** C3 does not hold of the code.  After ["dragons"] is typed and Enter
    pressed, the loading flag is set and one generation is pending.  A
    click on the submit button is then without effect, but a second Enter
    issues a second POST: two generation requests are in flight at once,
    in both components. *)
Theorem enter_twice_issues_two_requests :
  let typed := u "dragons" in
  let post := Fetch (POST_story (u "dragons")) in
  let a := Styled.steps Styled.mounted
             [Styled.Mount; Styled.ChangePrompt typed; Styled.KeyDown Enter] in
  let b := Plain.steps Plain.mounted
             [Plain.Mount; Plain.ChangePrompt typed; Plain.KeyDown Enter] in
  (Styled.loading (view a) = true /\ pending_generate a = 1%nat /\
   Styled.step a Styled.ClickSubmit = a /\
   pending_generate (Styled.step a (Styled.KeyDown Enter)) = 2%nat /\
   log (Styled.step a (Styled.KeyDown Enter)) = [Fetch GET_story; post; post]) /\
  (Plain.loading (view b) = true /\ pending_generate b = 1%nat /\
   Plain.step b Plain.ClickSubmit = b /\
   pending_generate (Plain.step b (Plain.KeyDown Enter)) = 2%nat /\
   log (Plain.step b (Plain.KeyDown Enter)) = [Fetch GET_story; post; post]).
Proof. vm_compute. repeat split. Qed.

(** ** The filter *)

Section FilterFacts.

Variable toLowerCase : jsstring -> jsstring.

#[export] Instance ci_contains_dec (q text : jsstring) :
  Decision (Spec.ci_contains toLowerCase q text).
Proof.
  destruct (includes (toLowerCase text) (toLowerCase q)) eqn:E.
  - left. now apply includes_spec.
  - right. intros H. apply includes_spec in H. congruence.
Defined.

#[export] Instance story_matches_dec (q : jsstring) (s : Story.t) :
  Decision (Spec.story_matches toLowerCase q s).
Proof. unfold Spec.story_matches. apply _. Defined.

(** The test of the source's [filter] callback decides [story_matches]. *)
Lemma callback_spec (q : jsstring) (s : Story.t) :
  includes (toLowerCase (Story.prompt s)) (toLowerCase q) ||
  includes (toLowerCase (Story.story s)) (toLowerCase q) = true <->
  Spec.story_matches toLowerCase q s.
Proof.
  unfold Spec.story_matches, Spec.ci_contains.
  now rewrite orb_true_iff, !includes_spec.
Qed.

(** The boolean [filter] of the source keeps what stdpp's [filter] keeps
    for a predicate the callback decides. *)
Lemma List_filter_decide {A : Type} (f : A -> bool) (P : A -> Prop)
    `{!forall x, Decision (P x)} (l : list A) :
  (forall x, f x = true <-> P x) -> List.filter f l = filter P l.
Proof.
  intros Hf. induction l as [|x l IH]; [reflexivity|].
  cbn [List.filter]. rewrite filter_cons, IH.
  destruct (f x) eqn:E.
  - rewrite decide_True; [reflexivity | now apply Hf].
  - rewrite decide_False; [reflexivity|]. intros HP. apply Hf in HP. congruence.
Qed.

Lemma filter_all {A : Type} (P : A -> Prop) `{!forall x, Decision (P x)}
    (l : list A) :
  (forall x, P x) -> filter P l = l.
Proof.
  intros HP. induction l as [|x l IH]; [reflexivity|].
  now rewrite filter_cons_True, IH.
Qed.

Lemma filtered_eq (stories : list Story.t) (query : jsstring) :
  Styled.filtered toLowerCase stories query =
  filter (Spec.story_matches toLowerCase (trim query)) stories.
Proof.
  unfold Styled.filtered. cbv zeta.
  destruct (truthy (toLowerCase (trim query))) eqn:E; cbn [negb].
  - apply List_filter_decide. intros s. apply callback_spec.
  - apply truthy_false in E. symmetry. apply filter_all.
    intros s. left. exists [], (toLowerCase (Story.prompt s)). now rewrite E.
Qed.

End FilterFacts.

(** ** The two components *)

Section Simulation.

(** Running two handlers that agree keeps two mounted components in
    agreement. *)
Lemma run_same (hs : Handler Styled.State unit) (hp : Handler Plain.State unit)
    (a : App Styled.State) (b : App Plain.State) :
  pending_list a = pending_list b ->
  pending_generate a = pending_generate b ->
  log a = log b ->
  effects_of (hs (view a)) = effects_of (hp (view b)) ->
  Styled.prompt (state_of (hs (view a))) = Plain.prompt (state_of (hp (view b))) ->
  Styled.loading (state_of (hs (view a))) = Plain.loading (state_of (hp (view b))) ->
  Styled.error (state_of (hs (view a))) = Plain.error (state_of (hp (view b))) ->
  Styled.stories (state_of (hs (view a))) = Plain.stories (state_of (hp (view b))) ->
  Spec.shown (Styled.generated (state_of (hs (view a))))
    = Plain.current (state_of (hp (view b))) ->
  Spec.same_contract (run hs a) (run hp b).
Proof.
  unfold run, state_of, effects_of.
  destruct (hs (view a)) as [[rs s'] ws], (hp (view b)) as [[rp p'] wp].
  cbn [fst snd]. intros Hl Hg Hlog -> H1 H2 H3 H4 H5.
  constructor; cbn [view pending_list pending_generate log]; congruence.
Qed.

Ltac same_after :=
  apply run_same; cbn [view pending_list pending_generate log];
  try congruence; handler_unfold; cbn; try congruence.

(** One event keeps the components in agreement. *)
Lemma step_same (a : App Styled.State) (b : App Plain.State) (ev : Plain.Event) :
  Spec.same_contract a b ->
  Spec.same_contract (Styled.step a (styled_event ev)) (Plain.step b ev).
Proof.
  intros [Hprompt Hloading Herror Hstories Hcurrent Hpl Hpg Hlog].
  destruct ev as [|v|key| | fetched | fetched];
    cbn [styled_event Styled.step Plain.step Styled.handler_of Plain.handler_of].
  - (* Mount *)
    same_after.
  - (* ChangePrompt *)
    same_after.
  - (* KeyDown *)
    destruct (decide (key = Enter)); [|same_after].
    apply run_same; try congruence; handler_unfold; rewrite <- Hprompt;
      destruct (truthy (trim (Styled.prompt (view a)))); cbn; congruence.
  - (* ClickSubmit *)
    unfold Styled.submit_disabled, Plain.submit_disabled.
    rewrite <- Hprompt, <- Hloading.
    destruct (Styled.loading (view a)) eqn:Hl; cbn [orb]; [same_after|].
    destruct (truthy (trim (Styled.prompt (view a)))) eqn:Hp;
      cbn [negb]; [|same_after].
    apply run_same; try congruence; handler_unfold; rewrite <- Hprompt, Hp;
      cbn; congruence.
  - (* ListSettled *)
    rewrite <- Hpl. destruct (pending_list a) as [|n] eqn:Hn;
      [constructor; congruence|].
    apply run_same; cbn [view pending_list pending_generate log one_list_less];
      try congruence; handler_unfold;
      (destruct fetched as [res|e]; [destruct (ok res); [destruct (json res)|]|]);
      cbn; congruence.
  - (* GenerateSettled *)
    rewrite <- Hpg. destruct (pending_generate a) as [|n] eqn:Hn;
      [constructor; congruence|].
    apply run_same;
      cbn [view pending_list pending_generate log one_generate_less];
      try congruence; handler_unfold;
      (destruct fetched as [res|e];
       [destruct (ok res); [destruct (json res)|destruct (text res)]|]);
      cbn; congruence.
Qed.

Lemma steps_same (evs : list Plain.Event)
    (a : App Styled.State) (b : App Plain.State) :
  Spec.same_contract a b ->
  Spec.same_contract (Styled.steps a (map styled_event evs)) (Plain.steps b evs).
Proof.
  revert a b. induction evs as [|ev evs IH]; intros a b Hab; [exact Hab|].
  cbn [map Styled.steps Plain.steps fold_left].
  apply IH. now apply step_same.
Qed.

End Simulation.

(** * Further properties of the code *)

(** ** What [trim] leaves *)

Section TrimFacts.

Lemma rev_is_reverse (s : jsstring) : rev s = reverse s.
Proof. unfold reverse. apply rev_alt. Qed.

Lemma trimStart_head (s : jsstring) c r :
  trimStart s = c :: r -> is_white_space c = false.
Proof.
  induction s as [|d s IH]; simpl; [discriminate|].
  destruct (is_white_space d) eqn:Hd; [exact IH|].
  intros [= <- _]. exact Hd.
Qed.

Lemma trimStart_split (s : jsstring) :
  exists pre, s = pre ++ trimStart s /\
              Forall (fun c => is_white_space c = true) pre.
Proof.
  induction s as [|d s (pre & Hs & Hpre)]; simpl.
  - now exists [].
  - destruct (is_white_space d) eqn:Hd.
    + exists (d :: pre). split; [simpl; now rewrite <- Hs | now constructor].
    + now exists [].
Qed.

Lemma trimStart_id (s : jsstring) :
  (forall c, head s = Some c -> is_white_space c = false) -> trimStart s = s.
Proof.
  destruct s as [|d s]; simpl; [reflexivity|].
  intros H. now rewrite (H d eq_refl).
Qed.

Lemma trimEnd_split (s : jsstring) :
  exists suf, s = trimEnd s ++ suf /\
              Forall (fun c => is_white_space c = true) suf.
Proof.
  unfold trimEnd. destruct (trimStart_split (rev s)) as (pre & Hs & Hpre).
  exists (rev pre). split.
  - rewrite <- rev_app_distr, <- Hs. now rewrite rev_involutive.
  - rewrite rev_is_reverse. now apply Forall_reverse.
Qed.

Lemma trimEnd_last (s : jsstring) c :
  last (trimEnd s) = Some c -> is_white_space c = false.
Proof.
  unfold trimEnd. rewrite rev_is_reverse, last_reverse.
  destruct (trimStart (rev s)) as [|d r] eqn:E; simpl; [discriminate|].
  intros [= <-]. exact (trimStart_head _ _ _ E).
Qed.

Lemma trimEnd_id (s : jsstring) :
  (forall c, last s = Some c -> is_white_space c = false) -> trimEnd s = s.
Proof.
  intros H. unfold trimEnd. rewrite trimStart_id; [apply rev_involutive|].
  intros c. rewrite rev_is_reverse, head_reverse. apply H.
Qed.

Lemma trim_head (s : jsstring) c :
  head (trim s) = Some c -> is_white_space c = false.
Proof.
  unfold trim. destruct (trimEnd_split (trimStart s)) as (suf & Hs & _).
  destruct (trimEnd (trimStart s)) as [|d r]; simpl; [discriminate|].
  intros [= <-]. simpl in Hs. exact (trimStart_head _ _ _ Hs).
Qed.

Lemma trim_last (s : jsstring) c :
  last (trim s) = Some c -> is_white_space c = false.
Proof. apply trimEnd_last. Qed.

Lemma trim_well_trimmed (s : jsstring) :
  trim s <> [] -> Trace.well_trimmed (trim s).
Proof.
  intros H. split; [exact H|]. split; [apply trim_head | apply trim_last].
Qed.

Lemma trim_idempotent (s : jsstring) : trim (trim s) = trim s.
Proof.
  unfold trim at 1. rewrite (trimStart_id (trim s)) by apply trim_head.
  apply trimEnd_id, trim_last.
Qed.

End TrimFacts.

(** The prompt is cut at both ends, by white space only: the input is
    white space, then the trimmed prompt, then white space, and the
    trimmed prompt neither starts nor ends with white space.  Trimming
    again changes nothing. *)
Lemma trim_cuts_white_space (s : jsstring) :
  (exists pre suf,
     s = pre ++ trim s ++ suf /\
     Forall (fun c => is_white_space c = true) pre /\
     Forall (fun c => is_white_space c = true) suf) /\
  (forall c, head (trim s) = Some c -> is_white_space c = false) /\
  (forall c, last (trim s) = Some c -> is_white_space c = false) /\
  trim (trim s) = trim s.
Proof.
  split; [|split; [apply trim_head | split; [apply trim_last | apply trim_idempotent]]].
  destruct (trimStart_split s) as (pre & Hs & Hpre).
  destruct (trimEnd_split (trimStart s)) as (suf & Ht & Hsuf).
  exists pre, suf. split; [|now split].
  unfold trim. now rewrite <- Ht.
Qed.

(** ** What the handlers never do *)

Lemma styled_settled_quiet fetched (s : Styled.State) :
  fst (fst (Styled.onGenerate_settled fetched s)) = Fulfilled tt /\
  effects_of (Styled.onGenerate_settled fetched s) = [].
Proof.
  handler_unfold.
  destruct fetched as [res|e]; [|now split].
  destruct (ok res); [destruct (json res) | destruct (text res)]; now split.
Qed.

Lemma plain_settled_quiet fetched (s : Plain.State) :
  fst (fst (Plain.generate_settled fetched s)) = Fulfilled tt /\
  effects_of (Plain.generate_settled fetched s) = [].
Proof.
  handler_unfold.
  destruct fetched as [res|e]; [|now split].
  destruct (ok res); [destruct (json res) | destruct (text res)]; now split.
Qed.

(** No handler lets an exception escape: whatever the backend answers
    (a rejected [fetch], any status, a body that cannot be read or
    decoded) and whatever the cells hold, listing and generation return
    normally, as a whole and from the moment the promise settles.  There
    is no unhandled rejection. *)
Theorem handlers_never_throw :
  (forall net (s : Styled.State), fst (fst (Styled.loadStories net s)) = Fulfilled tt) /\
  (forall net (s : Styled.State), fst (fst (Styled.onGenerate net s)) = Fulfilled tt) /\
  (forall net (s : Plain.State), fst (fst (Plain.loadStories net s)) = Fulfilled tt) /\
  (forall net (s : Plain.State), fst (fst (Plain.generate net s)) = Fulfilled tt) /\
  (forall fetched (s : Styled.State),
     fst (fst (Styled.loadStories_settled fetched s)) = Fulfilled tt) /\
  (forall fetched (s : Styled.State),
     fst (fst (Styled.onGenerate_settled fetched s)) = Fulfilled tt) /\
  (forall fetched (s : Plain.State),
     fst (fst (Plain.loadStories_settled fetched s)) = Fulfilled tt) /\
  (forall fetched (s : Plain.State),
     fst (fst (Plain.generate_settled fetched s)) = Fulfilled tt).
Proof.
  repeat split; intros.
  - handler_unfold. destruct (net GET_story) as [res|e]; [|reflexivity].
    destruct (ok res); [destruct (json res)|]; reflexivity.
  - handler_unfold. destruct (truthy (trim (Styled.prompt s))); [|reflexivity].
    destruct (net _) as [res|e]; [|reflexivity].
    destruct (ok res); [destruct (json res) | destruct (text res)]; reflexivity.
  - handler_unfold. destruct (net GET_story) as [res|e]; [|reflexivity].
    destruct (ok res); [destruct (json res)|]; reflexivity.
  - handler_unfold. destruct (truthy (trim (Plain.prompt s))); [|reflexivity].
    destruct (net _) as [res|e]; [|reflexivity].
    destruct (ok res); [destruct (json res) | destruct (text res)]; reflexivity.
  - handler_unfold. destruct fetched as [res|e]; [|reflexivity].
    destruct (ok res); [destruct (json res)|]; reflexivity.
  - apply styled_settled_quiet.
  - handler_unfold. destruct fetched as [res|e]; [|reflexivity].
    destruct (ok res); [destruct (json res)|]; reflexivity.
  - apply plain_settled_quiet.
Qed.

(** A generation issues at most one request and never writes to the
    console.  With a blank prompt it issues none; otherwise it issues one
    POST whose prompt is the trimmed input: not empty, with no white space
    at either end.  Whether the call then succeeds or fails adds no
    further effect. *)
Theorem generate_request_shape net_s net_p (s : Styled.State) (p : Plain.State) :
  (trim (Styled.prompt s) = [] /\ effects_of (Styled.onGenerate net_s s) = [] \/
   Trace.well_trimmed (trim (Styled.prompt s)) /\
   effects_of (Styled.onGenerate net_s s) =
     [Fetch (POST_story (trim (Styled.prompt s)))]) /\
  (trim (Plain.prompt p) = [] /\ effects_of (Plain.generate net_p p) = [] \/
   Trace.well_trimmed (trim (Plain.prompt p)) /\
   effects_of (Plain.generate net_p p) =
     [Fetch (POST_story (trim (Plain.prompt p)))]).
Proof.
  split.
  - destruct (trim (Styled.prompt s)) as [|c r] eqn:E.
    + left. split; [reflexivity|]. handler_unfold. now rewrite E.
    + right. rewrite <- E.
      assert (Hp : trim (Styled.prompt s) <> []) by (rewrite E; discriminate).
      split; [now apply trim_well_trimmed|].
      rewrite (styled_onGenerate_run net_s s Hp).
      unfold effects_of at 1. cbn [snd].
      now rewrite (proj2 (styled_settled_quiet _ _)).
  - destruct (trim (Plain.prompt p)) as [|c r] eqn:E.
    + left. split; [reflexivity|]. handler_unfold. now rewrite E.
    + right. rewrite <- E.
      assert (Hp : trim (Plain.prompt p) <> []) by (rewrite E; discriminate).
      split; [now apply trim_well_trimmed|].
      rewrite (plain_generate_run net_p p Hp).
      unfold effects_of at 1. cbn [snd].
      now rewrite (proj2 (plain_settled_quiet _ _)).
Qed.

Lemma styled_loadStories_succeeds net data (s : Styled.State) :
  Spec.succeeded (net GET_story) = Some data ->
  Styled.loadStories net s =
  (Fulfilled tt,
   {| Styled.prompt := Styled.prompt s; Styled.loading := Styled.loading s;
      Styled.fetching := false; Styled.error := Styled.error s;
      Styled.stories := data; Styled.generated := Styled.generated s;
      Styled.query := Styled.query s |},
   [Fetch GET_story]).
Proof.
  intros E. rewrite styled_loadStories_run.
  now rewrite (styled_list_settled_success _ data _ E).
Qed.

Lemma plain_loadStories_succeeds net data (s : Plain.State) :
  Spec.succeeded (net GET_story) = Some data ->
  Plain.loadStories net s =
  (Fulfilled tt,
   {| Plain.prompt := Plain.prompt s; Plain.loading := Plain.loading s;
      Plain.error := Plain.error s; Plain.stories := data;
      Plain.current := Plain.current s |},
   [Fetch GET_story]).
Proof.
  intros E. rewrite plain_loadStories_run.
  now rewrite (plain_list_settled_success _ data _ E).
Qed.

Lemma styled_loadStories_fails net (s : Styled.State) :
  Spec.succeeded (net GET_story) = None ->
  exists e,
  Styled.loadStories net s =
  (Fulfilled tt,
   {| Styled.prompt := Styled.prompt s; Styled.loading := Styled.loading s;
      Styled.fetching := false; Styled.error := Styled.error s;
      Styled.stories := Styled.stories s;
      Styled.generated := Styled.generated s;
      Styled.query := Styled.query s |},
   [Fetch GET_story; ConsoleError e]).
Proof.
  intros E. destruct (listing_throws _ E) as (e & _ & _ & Hs & _).
  exists e. rewrite styled_loadStories_run. now rewrite Hs.
Qed.

Lemma plain_loadStories_fails net (s : Plain.State) :
  Spec.succeeded (net GET_story) = None ->
  exists e,
  Plain.loadStories net s = (Fulfilled tt, s, [Fetch GET_story; ConsoleError e]).
Proof.
  intros E. destruct (listing_throws _ E) as (e & _ & _ & _ & Hp).
  exists e. rewrite plain_loadStories_run. now rewrite Hp.
Qed.

(** A listing writes the collection and (in the styled component) the
    fetching flag, and nothing else: prompt, loading flag, error, result
    on display and query are what they were for every answer of the
    backend.  The collection afterwards is the old one or the decoded body
    of a successful answer, and the fetching flag ends false. *)
Theorem listing_frame net (s : Styled.State) (p : Plain.State) :
  (let s' := state_of (Styled.loadStories net s) in
   Styled.prompt s' = Styled.prompt s /\
   Styled.loading s' = Styled.loading s /\
   Styled.error s' = Styled.error s /\
   Styled.generated s' = Styled.generated s /\
   Styled.query s' = Styled.query s /\
   Styled.fetching s' = false /\
   (Spec.succeeded (net GET_story) = None /\ Styled.stories s' = Styled.stories s \/
    Spec.succeeded (net GET_story) = Some (Styled.stories s'))) /\
  (let p' := state_of (Plain.loadStories net p) in
   Plain.prompt p' = Plain.prompt p /\
   Plain.loading p' = Plain.loading p /\
   Plain.error p' = Plain.error p /\
   Plain.current p' = Plain.current p /\
   (Spec.succeeded (net GET_story) = None /\ Plain.stories p' = Plain.stories p \/
    Spec.succeeded (net GET_story) = Some (Plain.stories p'))).
Proof.
  split; cbv zeta.
  - destruct (Spec.succeeded (net GET_story)) as [data|] eqn:E.
    + rewrite (styled_loadStories_succeeds net data s E).
      unfold state_of; cbn. repeat split. now right.
    + destruct (styled_loadStories_fails net s E) as (e & ->).
      unfold state_of; cbn. repeat split. now left.
  - destruct (Spec.succeeded (net GET_story)) as [data|] eqn:E.
    + rewrite (plain_loadStories_succeeds net data p E).
      unfold state_of; cbn. repeat split. now right.
    + destruct (plain_loadStories_fails net p E) as (e & ->).
      unfold state_of; cbn. repeat split. now left.
Qed.

(** ** What holds after every sequence of events *)

Section Reachable.

(** An invariant of single steps holds after every sequence of events. *)
Lemma styled_steps_ind (I : App Styled.State -> Prop) (allowed : Styled.Event -> Prop) :
  (forall a ev, I a -> allowed ev -> I (Styled.step a ev)) ->
  forall evs a, I a -> Forall allowed evs -> I (Styled.steps a evs).
Proof.
  intros Hstep evs. induction evs as [|ev evs IH]; intros a Ha Hall; [exact Ha|].
  apply Forall_cons in Hall as [Hev Hall].
  cbn [Styled.steps fold_left]. apply IH; [|exact Hall]. now apply Hstep.
Qed.

Lemma plain_steps_ind (I : App Plain.State -> Prop) (allowed : Plain.Event -> Prop) :
  (forall a ev, I a -> allowed ev -> I (Plain.step a ev)) ->
  forall evs a, I a -> Forall allowed evs -> I (Plain.steps a evs).
Proof.
  intros Hstep evs. induction evs as [|ev evs IH]; intros a Ha Hall; [exact Ha|].
  apply Forall_cons in Hall as [Hev Hall].
  cbn [Plain.steps fold_left]. apply IH; [|exact Hall]. now apply Hstep.
Qed.

Lemma Forall_anything {A : Type} (l : list A) : Forall (fun _ => True) l.
Proof. induction l; now constructor. Qed.

(** Running a handler, by the effects it had. *)
Lemma run_quiet {S : Type} (h : Handler S unit) (a : App S) r s' :
  h (view a) = (r, s', []) ->
  run h a = {| view := s'; pending_list := pending_list a;
               pending_generate := pending_generate a; log := log a |}.
Proof.
  intros Hh. unfold run. rewrite Hh.
  cbn [List.filter length]. now rewrite !Nat.add_0_r, app_nil_r.
Qed.

Lemma run_get {S : Type} (h : Handler S unit) (a : App S) r s' :
  h (view a) = (r, s', [Fetch GET_story]) ->
  run h a = {| view := s'; pending_list := Datatypes.S (pending_list a);
               pending_generate := pending_generate a;
               log := log a ++ [Fetch GET_story] |}.
Proof.
  intros Hh. unfold run. rewrite Hh.
  cbn [List.filter length is_GET is_POST]. now rewrite Nat.add_0_r, Nat.add_1_r.
Qed.

Lemma run_post {S : Type} (h : Handler S unit) (a : App S) r s' p :
  h (view a) = (r, s', [Fetch (POST_story p)]) ->
  run h a = {| view := s'; pending_list := pending_list a;
               pending_generate := Datatypes.S (pending_generate a);
               log := log a ++ [Fetch (POST_story p)] |}.
Proof.
  intros Hh. unfold run. rewrite Hh.
  cbn [List.filter length is_GET is_POST]. now rewrite Nat.add_0_r, Nat.add_1_r.
Qed.

Lemma run_console {S : Type} (h : Handler S unit) (a : App S) r s' e :
  h (view a) = (r, s', [ConsoleError e]) ->
  run h a = {| view := s'; pending_list := pending_list a;
               pending_generate := pending_generate a;
               log := log a ++ [ConsoleError e] |}.
Proof.
  intros Hh. unfold run. rewrite Hh.
  cbn [List.filter length is_GET is_POST]. now rewrite !Nat.add_0_r.
Qed.

Lemma styled_begin_blank (s : Styled.State) :
  trim (Styled.prompt s) = [] -> Styled.onGenerate_begin s = (Fulfilled tt, s, []).
Proof. intros Hp. handler_unfold. now rewrite Hp. Qed.

Lemma plain_begin_blank (s : Plain.State) :
  trim (Plain.prompt s) = [] -> Plain.generate_begin s = (Fulfilled tt, s, []).
Proof. intros Hp. handler_unfold. now rewrite Hp. Qed.

Lemma styled_begin_moves (a : App Styled.State) ev :
  (Trace.styled_enter ev = false -> Styled.loading (view a) = false) ->
  Trace.styled_move a ev (run Styled.onGenerate_begin a).
Proof.
  intros Hguard. destruct (trim (Styled.prompt (view a))) as [|c r] eqn:E.
  - rewrite (run_noop _ _ _ (styled_begin_blank _ E)). constructor.
  - assert (Hp : trim (Styled.prompt (view a)) <> []) by (rewrite E; discriminate).
    rewrite (run_post _ _ _ _ _ (styled_begin_issues _ Hp)).
    now apply Trace.styled_generate_begun.
Qed.

Lemma plain_begin_moves (a : App Plain.State) ev :
  (Trace.plain_enter ev = false -> Plain.loading (view a) = false) ->
  Trace.plain_move a ev (run Plain.generate_begin a).
Proof.
  intros Hguard. destruct (trim (Plain.prompt (view a))) as [|c r] eqn:E.
  - rewrite (run_noop _ _ _ (plain_begin_blank _ E)). constructor.
  - assert (Hp : trim (Plain.prompt (view a)) <> []) by (rewrite E; discriminate).
    rewrite (run_post _ _ _ _ _ (plain_begin_issues _ Hp)).
    now apply Trace.plain_generate_begun.
Qed.

Lemma styled_settled_success fetched data (s : Styled.State) :
  Spec.succeeded fetched = Some data ->
  Styled.onGenerate_settled fetched s =
  (Fulfilled tt,
   {| Styled.prompt := []; Styled.loading := false;
      Styled.fetching := Styled.fetching s; Styled.error := Styled.error s;
      Styled.stories := data :: Styled.stories s;
      Styled.generated := Some data; Styled.query := Styled.query s |},
   []).
Proof.
  intros Hs. apply succeeded_inv in Hs as (res & -> & Hok & Hjson).
  handler_unfold. now rewrite Hok, Hjson.
Qed.

Lemma plain_settled_success fetched data (s : Plain.State) :
  Spec.succeeded fetched = Some data ->
  Plain.generate_settled fetched s =
  (Fulfilled tt,
   {| Plain.prompt := []; Plain.loading := false;
      Plain.error := Plain.error s;
      Plain.stories := data :: Plain.stories s;
      Plain.current := Story.story data |},
   []).
Proof.
  intros Hs. apply succeeded_inv in Hs as (res & -> & Hok & Hjson).
  handler_unfold. now rewrite Hok, Hjson.
Qed.

(** Every step of the styled component is one of the moves. *)
Lemma styled_step_moves (a : App Styled.State) (ev : Styled.Event) :
  Trace.styled_move a ev (Styled.step a ev).
Proof.
  destruct ev as [|v|key| | |v|fetched|fetched];
    cbn [Styled.step Styled.handler_of].
  - rewrite (run_get Styled.loadStories_begin a (Fulfilled tt) _ eq_refl).
    apply Trace.styled_list_begun. discriminate.
  - rewrite (run_quiet (Styled.setPrompt v) a (Fulfilled tt) _ eq_refl).
    apply Trace.styled_typed.
  - destruct (decide (key = Enter)) as [Hk|Hk].
    + apply styled_begin_moves. cbn. rewrite bool_decide_eq_true_2 by exact Hk.
      discriminate.
    + rewrite (run_noop (mret tt) a (Fulfilled tt) eq_refl). constructor.
  - unfold Styled.submit_disabled.
    destruct (Styled.loading (view a)) eqn:Hl; cbn [orb].
    + rewrite (run_noop (mret tt) a (Fulfilled tt) eq_refl). constructor.
    + destruct (truthy (trim (Styled.prompt (view a)))); cbn [negb].
      * now apply styled_begin_moves.
      * rewrite (run_noop (mret tt) a (Fulfilled tt) eq_refl). constructor.
  - unfold Styled.refresh_disabled.
    destruct (Styled.fetching (view a)) eqn:Hf.
    + rewrite (run_noop (mret tt) a (Fulfilled tt) eq_refl). constructor.
    + rewrite (run_get Styled.loadStories_begin a (Fulfilled tt) _ eq_refl).
      now apply Trace.styled_list_begun.
  - rewrite (run_quiet (Styled.setQuery v) a (Fulfilled tt) _ eq_refl).
    apply Trace.styled_searched.
  - destruct (pending_list a) as [|n] eqn:Hn; [constructor|].
    destruct (Spec.succeeded fetched) as [data|] eqn:E.
    + rewrite (run_quiet _ (one_list_less a n) _ _
                 (styled_list_settled_success fetched data _ E)).
      now apply (Trace.styled_listed a _ n fetched data).
    + destruct (listing_throws fetched E) as (e & _ & _ & Hs & _).
      rewrite (run_console _ (one_list_less a n) _ _ _ (Hs _)).
      now apply (Trace.styled_list_failed a _ n e).
  - destruct (pending_generate a) as [|n] eqn:Hn; [constructor|].
    destruct (Spec.succeeded fetched) as [data|] eqn:E.
    + rewrite (run_quiet _ (one_generate_less a n) _ _
                 (styled_settled_success fetched data _ E)).
      now apply (Trace.styled_generated a _ n fetched data).
    + destruct (styled_settled_failure fetched (view a) E) as (msg & Hm & Hs).
      rewrite (run_quiet _ (one_generate_less a n) _ _ Hs).
      now apply (Trace.styled_generate_failed a _ n msg).
Qed.

(** Every step of the plain component is one of the moves. *)
Lemma plain_step_moves (a : App Plain.State) (ev : Plain.Event) :
  Trace.plain_move a ev (Plain.step a ev).
Proof.
  destruct ev as [|v|key| |fetched|fetched];
    cbn [Plain.step Plain.handler_of].
  - rewrite (run_get Plain.loadStories_begin a (Fulfilled tt) _ eq_refl).
    apply Trace.plain_list_begun.
  - rewrite (run_quiet (Plain.setPrompt v) a (Fulfilled tt) _ eq_refl).
    apply Trace.plain_typed.
  - destruct (decide (key = Enter)) as [Hk|Hk].
    + apply plain_begin_moves. cbn. rewrite bool_decide_eq_true_2 by exact Hk.
      discriminate.
    + rewrite (run_noop (mret tt) a (Fulfilled tt) eq_refl). constructor.
  - unfold Plain.submit_disabled.
    destruct (Plain.loading (view a)) eqn:Hl; cbn [orb].
    + rewrite (run_noop (mret tt) a (Fulfilled tt) eq_refl). constructor.
    + destruct (truthy (trim (Plain.prompt (view a)))); cbn [negb].
      * now apply plain_begin_moves.
      * rewrite (run_noop (mret tt) a (Fulfilled tt) eq_refl). constructor.
  - destruct (pending_list a) as [|n] eqn:Hn; [constructor|].
    destruct (Spec.succeeded fetched) as [data|] eqn:E.
    + rewrite (run_quiet _ (one_list_less a n) _ _
                 (plain_list_settled_success fetched data _ E)).
      now apply (Trace.plain_listed a _ n fetched data).
    + destruct (listing_throws fetched E) as (e & _ & _ & _ & Hp).
      rewrite (run_console _ (one_list_less a n) _ _ _ (Hp _)).
      now apply (Trace.plain_list_failed a _ n e).
  - destruct (pending_generate a) as [|n] eqn:Hn; [constructor|].
    destruct (Spec.succeeded fetched) as [data|] eqn:E.
    + rewrite (run_quiet _ (one_generate_less a n) _ _
                 (plain_settled_success fetched data _ E)).
      now apply (Trace.plain_generated a _ n fetched data).
    + destruct (plain_settled_failure fetched (view a) E) as (msg & Hm & Hs).
      rewrite (run_quiet _ (one_generate_less a n) _ _ Hs).
      now apply (Trace.plain_generate_failed a _ n msg).
Qed.

End Reachable.

(** In every state either component can reach, the error cell never holds
    the empty string, so the banner shows exactly what the error cell
    holds: an error that was set is always visible. *)
Theorem banner_shows_every_error
    (styled_events : list Styled.Event) (plain_events : list Plain.Event) :
  let a := Styled.steps Styled.mounted styled_events in
  let b := Plain.steps Plain.mounted plain_events in
  Styled.banner (view a) = Styled.error (view a) /\
  Plain.banner (view b) = Plain.error (view b).
Proof.
  intros a b. split.
  - assert (H : forall msg, Styled.error (view a) = Some msg -> msg <> []).
    { subst a.
      apply (styled_steps_ind
               (fun a => forall msg, Styled.error (view a) = Some msg -> msg <> [])
               (fun _ => True)); [| discriminate | apply Forall_anything].
      intros x ev Hx _ msg. destruct (styled_step_moves x ev); cbn;
        try apply Hx; try discriminate. now intros [= <-]. }
    unfold Styled.banner. destruct (Styled.error (view a)) as [msg|]; [|reflexivity].
    specialize (H msg eq_refl). apply truthy_true in H. now rewrite H.
  - assert (H : forall msg, Plain.error (view b) = Some msg -> msg <> []).
    { subst b.
      apply (plain_steps_ind
               (fun a => forall msg, Plain.error (view a) = Some msg -> msg <> [])
               (fun _ => True)); [| discriminate | apply Forall_anything].
      intros x ev Hx _ msg. destruct (plain_step_moves x ev); cbn;
        try apply Hx; try discriminate. now intros [= <-]. }
    unfold Plain.banner. destruct (Plain.error (view b)) as [msg|]; [|reflexivity].
    specialize (H msg eq_refl). apply truthy_true in H. now rewrite H.
Qed.

(** The busy indicators never show without a request behind them: in
    every reachable state a set loading flag means a generation is
    pending, and (styled component) a set fetching flag means a listing
    is pending. *)
Theorem busy_means_pending
    (styled_events : list Styled.Event) (plain_events : list Plain.Event) :
  let a := Styled.steps Styled.mounted styled_events in
  let b := Plain.steps Plain.mounted plain_events in
  (Styled.loading (view a) = true -> (1 <= pending_generate a)%nat) /\
  (Styled.fetching (view a) = true -> (1 <= pending_list a)%nat) /\
  (Plain.loading (view b) = true -> (1 <= pending_generate b)%nat).
Proof.
  intros a b.
  assert (Ha : (Styled.loading (view a) = true -> (1 <= pending_generate a)%nat) /\
               (Styled.fetching (view a) = true -> (1 <= pending_list a)%nat)).
  { subst a.
    apply (styled_steps_ind
             (fun a => (Styled.loading (view a) = true -> (1 <= pending_generate a)%nat) /\
                       (Styled.fetching (view a) = true -> (1 <= pending_list a)%nat))
             (fun _ => True)); [| split; discriminate | apply Forall_anything].
    intros x ev [Hl Hf] _. destruct (styled_step_moves x ev); cbn;
      (split; intros Hx); try discriminate; try lia;
      try (specialize (Hl Hx); lia); try (specialize (Hf Hx); lia). }
  split; [apply Ha | split; [apply Ha|]].
  subst b.
  apply (plain_steps_ind
           (fun a => Plain.loading (view a) = true -> (1 <= pending_generate a)%nat)
           (fun _ => True)); [| discriminate | apply Forall_anything].
  intros x ev Hl _. destruct (plain_step_moves x ev); cbn; intros Hx;
    try discriminate; try lia; try (specialize (Hl Hx); lia).
Qed.

(** Submitting with the button alone keeps generations one at a time: in
    a sequence of events with no Enter key pressed, at most one generation
    is ever pending, and one is pending exactly while the loading flag is
    set.  (Other keys, typing, listing and settling are all allowed.) *)
Theorem button_alone_is_single_flight
    (styled_events : list Styled.Event) (plain_events : list Plain.Event)
    (Hs : Forall (fun ev => Trace.styled_enter ev = false) styled_events)
    (Hp : Forall (fun ev => Trace.plain_enter ev = false) plain_events) :
  let a := Styled.steps Styled.mounted styled_events in
  let b := Plain.steps Plain.mounted plain_events in
  ((pending_generate a <= 1)%nat /\
   (Styled.loading (view a) = true <-> pending_generate a = 1%nat)) /\
  ((pending_generate b <= 1)%nat /\
   (Plain.loading (view b) = true <-> pending_generate b = 1%nat)).
Proof.
  intros a b. split.
  - subst a.
    apply (styled_steps_ind
             (fun a => (pending_generate a <= 1)%nat /\
                       (Styled.loading (view a) = true <-> pending_generate a = 1%nat))
             (fun ev => Trace.styled_enter ev = false));
      [| cbn; split; [lia | split; discriminate] | exact Hs].
    intros x ev [Hle Hiff] Hev.
    destruct (styled_step_moves x ev) as
      [ | | | | Hguard _ | | | n ? ? ? ? Hn | n ? Hn _ ]; cbn;
      try (split; [exact Hle | exact Hiff]).
    + specialize (Hguard Hev).
      assert (pending_generate x = 0%nat).
      { destruct (pending_generate x) as [|[|k]]; [reflexivity | | lia].
        assert (Styled.loading (view x) = true) by now apply Hiff. congruence. }
      split; [lia | split; [intros _; lia | reflexivity]].
    + split; [lia | split; [discriminate | lia]].
    + split; [lia | split; [discriminate | lia]].
  - subst b.
    apply (plain_steps_ind
             (fun a => (pending_generate a <= 1)%nat /\
                       (Plain.loading (view a) = true <-> pending_generate a = 1%nat))
             (fun ev => Trace.plain_enter ev = false));
      [| cbn; split; [lia | split; discriminate] | exact Hp].
    intros x ev [Hle Hiff] Hev.
    destruct (plain_step_moves x ev) as
      [ | | | Hguard _ | | | n ? ? ? ? Hn | n ? Hn _ ]; cbn;
      try (split; [exact Hle | exact Hiff]).
    + specialize (Hguard Hev).
      assert (pending_generate x = 0%nat).
      { destruct (pending_generate x) as [|[|k]]; [reflexivity | | lia].
        assert (Plain.loading (view x) = true) by now apply Hiff. congruence. }
      split; [lia | split; [intros _; lia | reflexivity]].
    + split; [lia | split; [discriminate | lia]].
    + split; [lia | split; [discriminate | lia]].
Qed.

(** Two clicks on the submit button in a row: one request. *)
Lemma button_alone_is_single_flight_witness :
  let evs := [Styled.Mount; Styled.ChangePrompt (u "dragons");
              Styled.ClickSubmit; Styled.ClickSubmit; Styled.KeyDown (u "a")] in
  let pevs := [Plain.Mount; Plain.ChangePrompt (u "dragons");
               Plain.ClickSubmit; Plain.ClickSubmit] in
  Forall (fun ev => Trace.styled_enter ev = false) evs /\
  Forall (fun ev => Trace.plain_enter ev = false) pevs /\
  (pending_generate (Styled.steps Styled.mounted evs) <= 1)%nat /\
  (pending_generate (Plain.steps Plain.mounted pevs) <= 1)%nat.
Proof.
  intros evs pevs.
  assert (Hs : Forall (fun ev => Trace.styled_enter ev = false) evs)
    by (repeat constructor).
  assert (Hp : Forall (fun ev => Trace.plain_enter ev = false) pevs)
    by (repeat constructor).
  destruct (button_alone_is_single_flight evs pevs Hs Hp) as [[H1 _] [H2 _]].
  split; [exact Hs|]. split; [exact Hp|]. split; [exact H1 | exact H2].
Defined.

(** The refresh button keeps listings one at a time: after the mount, in
    a sequence of events without a second mount, at most one listing is
    ever pending, and one is pending exactly while the fetching flag is
    set. *)
Theorem refresh_is_single_flight (events : list Styled.Event)
    (Hm : Forall (fun ev => Trace.styled_mount ev = false) events) :
  let a := Styled.steps Styled.mounted (Styled.Mount :: events) in
  (pending_list a <= 1)%nat /\
  (Styled.fetching (view a) = true <-> pending_list a = 1%nat).
Proof.
  cbn [Styled.steps fold_left]. cbv zeta.
  apply (styled_steps_ind
           (fun a => (pending_list a <= 1)%nat /\
                     (Styled.fetching (view a) = true <-> pending_list a = 1%nat))
           (fun ev => Trace.styled_mount ev = false));
    [| vm_compute; split; [lia | split; reflexivity] | exact Hm].
  intros x ev [Hle Hiff] Hev.
  destruct (styled_step_moves x ev) as
    [ | | | Hguard | | n ? ? ? ? Hn | n ? Hn | | ]; cbn;
    try (split; [exact Hle | exact Hiff]).
  - specialize (Hguard Hev).
    assert (pending_list x = 0%nat).
    { destruct (pending_list x) as [|[|k]]; [reflexivity | | lia].
      assert (Styled.fetching (view x) = true) by now apply Hiff. congruence. }
    split; [lia | split; [intros _; lia | reflexivity]].
  - split; [lia | split; [discriminate | lia]].
  - split; [lia | split; [discriminate | lia]].
Qed.

(** A second click on the refresh button while the first listing is
    pending issues nothing. *)
Lemma refresh_is_single_flight_witness :
  let evs := [Styled.ClickRefresh; Styled.ClickRefresh] in
  Forall (fun ev => Trace.styled_mount ev = false) evs /\
  (pending_list (Styled.steps Styled.mounted (Styled.Mount :: evs)) <= 1)%nat.
Proof.
  intros evs.
  assert (Hm : Forall (fun ev => Trace.styled_mount ev = false) evs)
    by (repeat constructor).
  split; [exact Hm|]. exact (proj1 (refresh_is_single_flight evs Hm)).
Defined.

(** Every generation either component ever requests carries a well
    trimmed prompt: in the log of every reachable state, each POST has a
    prompt that is not empty and has no white space at either end. *)
Theorem every_request_is_trimmed
    (styled_events : list Styled.Event) (plain_events : list Plain.Event) :
  Forall Trace.sound_effect (log (Styled.steps Styled.mounted styled_events)) /\
  Forall Trace.sound_effect (log (Plain.steps Plain.mounted plain_events)).
Proof.
  split.
  - apply (styled_steps_ind (fun a => Forall Trace.sound_effect (log a))
             (fun _ => True)); [| constructor | apply Forall_anything].
    intros x ev Hx _. destruct (styled_step_moves x ev); cbn; try exact Hx;
      apply Forall_app; (split; [exact Hx|]); (constructor; [cbn | constructor]);
      try exact I; now apply trim_well_trimmed.
  - apply (plain_steps_ind (fun a => Forall Trace.sound_effect (log a))
             (fun _ => True)); [| constructor | apply Forall_anything].
    intros x ev Hx _. destruct (plain_step_moves x ev); cbn; try exact Hx;
      apply Forall_app; (split; [exact Hx|]); (constructor; [cbn | constructor]);
      try exact I; now apply trim_well_trimmed.
Qed.

(** The client never edits or removes a single story.  One event leaves
    the collection as it is, or puts the Story of a generation that
    settled with success in front of it, or replaces it by the array of
    a listing that settled with success. *)
Theorem collection_grows_or_reloads
    (a : App Styled.State) (ev : Styled.Event)
    (b : App Plain.State) (pev : Plain.Event) :
  (Styled.stories (view (Styled.step a ev)) = Styled.stories (view a) \/
   (exists fetched data,
      ev = Styled.GenerateSettled fetched /\ Spec.succeeded fetched = Some data /\
      Styled.stories (view (Styled.step a ev)) = data :: Styled.stories (view a)) \/
   (exists fetched data,
      ev = Styled.ListSettled fetched /\ Spec.succeeded fetched = Some data /\
      Styled.stories (view (Styled.step a ev)) = data)) /\
  (Plain.stories (view (Plain.step b pev)) = Plain.stories (view b) \/
   (exists fetched data,
      pev = Plain.GenerateSettled fetched /\ Spec.succeeded fetched = Some data /\
      Plain.stories (view (Plain.step b pev)) = data :: Plain.stories (view b)) \/
   (exists fetched data,
      pev = Plain.ListSettled fetched /\ Spec.succeeded fetched = Some data /\
      Plain.stories (view (Plain.step b pev)) = data)).
Proof.
  split.
  - destruct (styled_step_moves a ev) as
      [ | | | | | n f data Hev Hs _ | | n f data Hev Hs _ | ]; cbn;
      try (now left).
    + right; right. now exists f, data.
    + right; left. now exists f, data.
  - destruct (plain_step_moves b pev) as
      [ | | | | n f data Hev Hs _ | | n f data Hev Hs _ | ]; cbn;
      try (now left).
    + right; right. now exists f, data.
    + right; left. now exists f, data.
Qed.

(** ** How the operations compose *)

Lemma styled_onGenerate_fails net (s : Styled.State) :
  trim (Styled.prompt s) <> [] ->
  Spec.succeeded (net (POST_story (trim (Styled.prompt s)))) = None ->
  exists msg, msg <> [] /\
    Styled.onGenerate net s =
    (Fulfilled tt,
     {| Styled.prompt := Styled.prompt s; Styled.loading := false;
        Styled.fetching := Styled.fetching s; Styled.error := Some msg;
        Styled.stories := Styled.stories s; Styled.generated := None;
        Styled.query := Styled.query s |},
     [Fetch (POST_story (trim (Styled.prompt s)))]).
Proof.
  intros Hp Hf. rewrite (styled_onGenerate_run net s Hp).
  destruct (styled_settled_failure _ (state_of (Styled.onGenerate_begin s)) Hf)
    as (msg & Hm & ->).
  exists msg. split; [exact Hm|]. now rewrite (styled_begin_issues s Hp).
Qed.

Lemma plain_generate_fails net (s : Plain.State) :
  trim (Plain.prompt s) <> [] ->
  Spec.succeeded (net (POST_story (trim (Plain.prompt s)))) = None ->
  exists msg, msg <> [] /\
    Plain.generate net s =
    (Fulfilled tt,
     {| Plain.prompt := Plain.prompt s; Plain.loading := false;
        Plain.error := Some msg; Plain.stories := Plain.stories s;
        Plain.current := [] |},
     [Fetch (POST_story (trim (Plain.prompt s)))]).
Proof.
  intros Hp Hf. rewrite (plain_generate_run net s Hp).
  destruct (plain_settled_failure _ (state_of (Plain.generate_begin s)) Hf)
    as (msg & Hm & ->).
  exists msg. split; [exact Hm|]. now rewrite (plain_begin_issues s Hp).
Qed.

(** A generation writes neither the fetching flag nor the query, for
    every answer of the backend.  With a prompt that is not blank it ends
    with the loading flag down, and the collection afterwards is the old
    one or the old one with the created Story in front. *)
Theorem generate_frame net (s : Styled.State) (p : Plain.State) :
  (let s' := state_of (Styled.onGenerate net s) in
   Styled.fetching s' = Styled.fetching s /\
   Styled.query s' = Styled.query s /\
   Styled.loading s' = (if truthy (trim (Styled.prompt s)) then false
                        else Styled.loading s) /\
   (Styled.stories s' = Styled.stories s \/
    exists data,
      Spec.succeeded (net (POST_story (trim (Styled.prompt s)))) = Some data /\
      Styled.stories s' = data :: Styled.stories s)) /\
  (let p' := state_of (Plain.generate net p) in
   Plain.loading p' = (if truthy (trim (Plain.prompt p)) then false
                       else Plain.loading p) /\
   (Plain.stories p' = Plain.stories p \/
    exists data,
      Spec.succeeded (net (POST_story (trim (Plain.prompt p)))) = Some data /\
      Plain.stories p' = data :: Plain.stories p)).
Proof.
  split; cbv zeta.
  - destruct (truthy (trim (Styled.prompt s))) eqn:Ht.
    + assert (Hp : trim (Styled.prompt s) <> []) by now apply truthy_true.
      destruct (Spec.succeeded (net (POST_story (trim (Styled.prompt s)))))
        as [data|] eqn:Hs.
      * rewrite (styled_onGenerate_succeeds net data s Hp Hs). cbn.
        repeat split. right. now exists data.
      * destruct (styled_onGenerate_fails net s Hp Hs) as (msg & _ & ->). cbn.
        repeat split. now left.
    + assert (H : Styled.onGenerate net s = (Fulfilled tt, s, []))
        by (handler_unfold; now rewrite Ht).
      rewrite H. cbn. repeat split. now left.
  - destruct (truthy (trim (Plain.prompt p))) eqn:Ht.
    + assert (Hp : trim (Plain.prompt p) <> []) by now apply truthy_true.
      destruct (Spec.succeeded (net (POST_story (trim (Plain.prompt p)))))
        as [data|] eqn:Hs.
      * rewrite (plain_generate_succeeds net data p Hp Hs). cbn.
        repeat split. right. now exists data.
      * destruct (plain_generate_fails net p Hp Hs) as (msg & _ & ->). cbn.
        repeat split. now left.
    + assert (H : Plain.generate net p = (Fulfilled tt, p, []))
        by (handler_unfold; now rewrite Ht).
      rewrite H. cbn. repeat split. now left.
Qed.

(** A failed generation can be retried at once and a successful one
    cannot be repeated by accident: after a failure the prompt is still
    there and the submit button is enabled again; after a success the
    prompt is empty and the button is disabled until something is typed. *)
Theorem retry_after_failure net (s : Styled.State) (p : Plain.State)
    (Hs : trim (Styled.prompt s) <> []) (Hp : trim (Plain.prompt p) <> []) :
  (Spec.succeeded (net (POST_story (trim (Styled.prompt s)))) = None ->
   Styled.prompt (state_of (Styled.onGenerate net s)) = Styled.prompt s /\
   Styled.loading (state_of (Styled.onGenerate net s)) = false /\
   Styled.submit_disabled (state_of (Styled.onGenerate net s)) = false) /\
  (forall data,
     Spec.succeeded (net (POST_story (trim (Styled.prompt s)))) = Some data ->
     Styled.prompt (state_of (Styled.onGenerate net s)) = [] /\
     Styled.loading (state_of (Styled.onGenerate net s)) = false /\
     Styled.submit_disabled (state_of (Styled.onGenerate net s)) = true) /\
  (Spec.succeeded (net (POST_story (trim (Plain.prompt p)))) = None ->
   Plain.prompt (state_of (Plain.generate net p)) = Plain.prompt p /\
   Plain.loading (state_of (Plain.generate net p)) = false /\
   Plain.submit_disabled (state_of (Plain.generate net p)) = false) /\
  (forall data,
     Spec.succeeded (net (POST_story (trim (Plain.prompt p)))) = Some data ->
     Plain.prompt (state_of (Plain.generate net p)) = [] /\
     Plain.loading (state_of (Plain.generate net p)) = false /\
     Plain.submit_disabled (state_of (Plain.generate net p)) = true).
Proof.
  split; [|split; [|split]].
  - intros Hf. destruct (styled_onGenerate_fails net s Hs Hf) as (msg & _ & ->).
    unfold Styled.submit_disabled, state_of.
    cbn [fst snd Styled.loading Styled.prompt orb].
    apply truthy_true in Hs. now rewrite Hs.
  - intros data Hd. now rewrite (styled_onGenerate_succeeds net data s Hs Hd).
  - intros Hf. destruct (plain_generate_fails net p Hp Hf) as (msg & _ & ->).
    unfold Plain.submit_disabled, state_of.
    cbn [fst snd Plain.loading Plain.prompt orb].
    apply truthy_true in Hp. now rewrite Hp.
  - intros data Hd. now rewrite (plain_generate_succeeds net data p Hp Hd).
Qed.

(** The typed prompt ["dragons"]: it is still there after a failure, with
    the button enabled, and gone after a success, with the button
    disabled. *)
Lemma retry_after_failure_witness :
  let s := Sample.styled_typed (u "dragons") in
  let p := Sample.plain_typed (u "dragons") in
  trim (Styled.prompt s) <> [] /\ trim (Plain.prompt p) <> [] /\
  Styled.prompt (state_of (Styled.onGenerate Sample.unreachable s)) = u "dragons" /\
  Styled.submit_disabled (state_of (Styled.onGenerate Sample.unreachable s)) = false /\
  Styled.prompt (state_of (Styled.onGenerate (Sample.created 200) s)) = [] /\
  Styled.submit_disabled (state_of (Styled.onGenerate (Sample.created 200) s)) = true.
Proof.
  intros s p.
  assert (Hs : trim (Styled.prompt s) <> []) by (vm_compute; discriminate).
  assert (Hp : trim (Plain.prompt p) <> []) by (vm_compute; discriminate).
  destruct (proj1 (retry_after_failure Sample.unreachable s p Hs Hp) eq_refl)
    as (H1 & _ & H2).
  destruct (proj1 (proj2 (retry_after_failure (Sample.created 200) s p Hs Hp))
              Sample.dragons eq_refl) as (H3 & _ & H4).
  split; [exact Hs|]. split; [exact Hp|]. split; [exact H1|].
  split; [exact H2|]. split; [exact H3 | exact H4].
Defined.

(** A listing and a generation that are both pending are not ordered, and
    the last to settle wins.  If the generation settles first, the
    listing then replaces the collection and the created Story is in it
    only if the listing has it; if the listing settles first, the created
    Story is put in front of the listed ones. *)
Theorem last_settled_wins
    (listing : Settled (Response (list Story.t)))
    (generation : Settled (Response Story.t))
    (listed : list Story.t) (created : Story.t)
    (Hl : Spec.succeeded listing = Some listed)
    (Hg : Spec.succeeded generation = Some created)
    (s : Styled.State) (p : Plain.State) :
  Styled.stories
    (state_of (Styled.loadStories_settled listing
                 (state_of (Styled.onGenerate_settled generation s)))) = listed /\
  Styled.stories
    (state_of (Styled.onGenerate_settled generation
                 (state_of (Styled.loadStories_settled listing s))))
    = created :: listed /\
  Plain.stories
    (state_of (Plain.loadStories_settled listing
                 (state_of (Plain.generate_settled generation p)))) = listed /\
  Plain.stories
    (state_of (Plain.generate_settled generation
                 (state_of (Plain.loadStories_settled listing p))))
    = created :: listed.
Proof.
  repeat split.
  - now rewrite (styled_list_settled_success _ listed _ Hl).
  - rewrite (styled_settled_success _ created _ Hg).
    now rewrite (styled_list_settled_success _ listed _ Hl).
  - now rewrite (plain_list_settled_success _ listed _ Hl).
  - rewrite (plain_settled_success _ created _ Hg).
    now rewrite (plain_list_settled_success _ listed _ Hl).
Qed.

(** A listing taken before the Story was created, settling after the
    generation: the created Story disappears from the collection. *)
Lemma last_settled_wins_witness :
  let listing := Sample.listed 200 [Sample.cats; Sample.dogs] GET_story in
  let generation := Sample.created 200 (POST_story (u "dragons")) in
  Spec.succeeded listing = Some [Sample.cats; Sample.dogs] /\
  Spec.succeeded generation = Some Sample.dragons /\
  Styled.stories
    (state_of (Styled.loadStories_settled listing
                 (state_of (Styled.onGenerate_settled generation Styled.initial))))
    = [Sample.cats; Sample.dogs] /\
  Styled.stories
    (state_of (Styled.onGenerate_settled generation
                 (state_of (Styled.loadStories_settled listing Styled.initial))))
    = [Sample.dragons; Sample.cats; Sample.dogs].
Proof.
  intros listing generation.
  destruct (last_settled_wins listing generation [Sample.cats; Sample.dogs]
              Sample.dragons eq_refl eq_refl Styled.initial Plain.initial)
    as (H1 & H2 & _).
  split; [reflexivity|]. split; [reflexivity|]. split; [exact H1 | exact H2].
Defined.

(** [handleCopy] swallows everything: whether the clipboard takes the
    text or refuses it, the handler returns normally, changes no cell,
    issues no request and logs nothing. *)
Theorem handleCopy_swallows
    (clipboard : jsstring -> Settled unit) (text : jsstring) (s : Styled.State) :
  StyledRest.handleCopy clipboard text s = (Fulfilled tt, s, []).
Proof.
  unfold StyledRest.handleCopy. handler_unfold.
  now destruct (clipboard text) as [[]|e].
Qed.

(** ** More on the filter *)

Section TrimPadding.

Lemma trimStart_app_space (pre s : jsstring) :
  Forall (fun c => is_white_space c = true) pre ->
  trimStart (pre ++ s) = trimStart s.
Proof.
  induction 1 as [|c pre Hc _ IH]; simpl; [reflexivity|]. now rewrite Hc.
Qed.

Lemma trimEnd_app_space (s suf : jsstring) :
  Forall (fun c => is_white_space c = true) suf ->
  trimEnd (s ++ suf) = trimEnd s.
Proof.
  intros H. unfold trimEnd. rewrite rev_app_distr.
  rewrite trimStart_app_space; [reflexivity|].
  rewrite rev_is_reverse. now apply Forall_reverse.
Qed.

(** [trim] finds the one way to cut a string into white space, a well
    trimmed (or empty) middle, and white space. *)
Lemma trim_unique (pre m suf : jsstring) :
  Forall (fun c => is_white_space c = true) pre ->
  Forall (fun c => is_white_space c = true) suf ->
  (forall c, head m = Some c -> is_white_space c = false) ->
  (forall c, last m = Some c -> is_white_space c = false) ->
  trim (pre ++ m ++ suf) = m.
Proof.
  intros Hpre Hsuf Hh Hl. unfold trim. rewrite (trimStart_app_space _ _ Hpre).
  destruct m as [|c m].
  - simpl. rewrite (trimStart_all_space _ Hsuf). reflexivity.
  - replace (trimStart ((c :: m) ++ suf)) with ((c :: m) ++ suf)
      by (simpl; now rewrite (Hh c eq_refl)).
    rewrite (trimEnd_app_space _ _ Hsuf). now apply trimEnd_id.
Qed.

Lemma trim_padded (pre q suf : jsstring) :
  Forall (fun c => is_white_space c = true) pre ->
  Forall (fun c => is_white_space c = true) suf ->
  trim (pre ++ q ++ suf) = trim q.
Proof.
  intros Hpre Hsuf.
  destruct (trim_cuts_white_space q) as ((pre' & suf' & Hq & Hpre' & Hsuf') & Hh & Hl & _).
  rewrite Hq at 1.
  replace (pre ++ (pre' ++ trim q ++ suf') ++ suf)
    with ((pre ++ pre') ++ trim q ++ (suf' ++ suf))
    by (now rewrite <- !app_assoc).
  apply trim_unique; try assumption; now apply Forall_app.
Qed.

End TrimPadding.

Section FilterMore.

Variable toLowerCase : jsstring -> jsstring.

Lemma filter_filter_same {A : Type} (P : A -> Prop) `{!forall x, Decision (P x)}
    (l : list A) :
  filter P (filter P l) = filter P l.
Proof.
  induction l as [|x l IH]; [reflexivity|].
  rewrite filter_cons. destruct (decide (P x)) as [Hx|Hx]; [|exact IH].
  now rewrite filter_cons_True, IH.
Qed.

Lemma filter_filter_swap {A : Type} (P Q : A -> Prop)
    `{!forall x, Decision (P x)} `{!forall x, Decision (Q x)} (l : list A) :
  filter P (filter Q l) = filter Q (filter P l).
Proof.
  induction l as [|x l IH]; [reflexivity|].
  rewrite !filter_cons.
  destruct (decide (Q x)) as [Hq|Hq], (decide (P x)) as [Hp|Hp];
    rewrite ?filter_cons_True, ?filter_cons_False by assumption;
    now rewrite ?IH.
Qed.

Lemma filter_nil_iff {A : Type} (P : A -> Prop) `{!forall x, Decision (P x)}
    (l : list A) :
  filter P l = [] <-> forall x, x ∈ l -> ~ P x.
Proof.
  split.
  - intros Hnil x Hx HP.
    assert (Hin : x ∈ filter P l) by now apply list_elem_of_filter.
    rewrite Hnil in Hin. now apply not_elem_of_nil in Hin.
  - intros Hall. induction l as [|x l IH]; [reflexivity|].
    rewrite filter_cons_False; [|apply Hall; now left].
    apply IH. intros y Hy. apply Hall. now right.
Qed.

Lemma filtered_composes_aux (l1 l2 : list Story.t) (q q2 : jsstring) :
  Styled.filtered toLowerCase (Styled.filtered toLowerCase l1 q) q
    = Styled.filtered toLowerCase l1 q /\
  Styled.filtered toLowerCase (l1 ++ l2) q
    = Styled.filtered toLowerCase l1 q ++ Styled.filtered toLowerCase l2 q /\
  Styled.filtered toLowerCase (Styled.filtered toLowerCase l1 q) q2
    = Styled.filtered toLowerCase (Styled.filtered toLowerCase l1 q2) q /\
  (length (Styled.filtered toLowerCase l1 q) <= length l1)%nat.
Proof.
  rewrite !filtered_eq. repeat split.
  - apply filter_filter_same.
  - apply filter_app.
  - apply filter_filter_swap.
  - apply length_filter.
Qed.

Lemma NoDup_map_filter {A B : Type} (f : A -> B) (P : A -> Prop)
    `{!forall x, Decision (P x)} (l : list A) :
  NoDup (map f l) -> NoDup (map f (filter P l)).
Proof.
  induction l as [|x l IH]; [now rewrite filter_nil|].
  cbn [map]. rewrite NoDup_cons. intros [Hx Hl].
  rewrite filter_cons. destruct (decide (P x)); [|now apply IH].
  cbn [map]. apply NoDup_cons. split; [|now apply IH].
  intros Hin. apply Hx. rewrite list_elem_of_In, in_map_iff in Hin |- *.
  destruct Hin as (y & Hy & Hin). exists y. split; [exact Hy|].
  rewrite <- list_elem_of_In in Hin |- *.
  now apply list_elem_of_filter in Hin as [_ Hin].
Qed.

End FilterMore.

(** The filter composes as a restriction should: filtering twice with the
    same query is filtering once; two queries can be applied in either
    order; the filter of two collections joined is the two filters
    joined (so a Story put in front of the collection shows in front of
    the filtered list exactly when it matches); and it never returns more
    than it was given. *)
Theorem filtered_composes
    (toLowerCase : jsstring -> jsstring) (l1 l2 : list Story.t)
    (q q2 : jsstring) :
  Styled.filtered toLowerCase (Styled.filtered toLowerCase l1 q) q
    = Styled.filtered toLowerCase l1 q /\
  Styled.filtered toLowerCase (l1 ++ l2) q
    = Styled.filtered toLowerCase l1 q ++ Styled.filtered toLowerCase l2 q /\
  Styled.filtered toLowerCase (Styled.filtered toLowerCase l1 q) q2
    = Styled.filtered toLowerCase (Styled.filtered toLowerCase l1 q2) q /\
  (length (Styled.filtered toLowerCase l1 q) <= length l1)%nat.
Proof. apply filtered_composes_aux. Qed.

(** White space around the query never matters: a query with any white
    space before and after it selects what the bare query selects. *)
Theorem filtered_ignores_padding
    (toLowerCase : jsstring -> jsstring) (stories : list Story.t)
    (pre q suf : jsstring)
    (Hpre : Forall (fun c => is_white_space c = true) pre)
    (Hsuf : Forall (fun c => is_white_space c = true) suf) :
  Styled.filtered toLowerCase stories (pre ++ q ++ suf)
    = Styled.filtered toLowerCase stories q.
Proof. unfold Styled.filtered. now rewrite (trim_padded pre q suf Hpre Hsuf). Qed.

Lemma filtered_ignores_padding_witness :
  Forall (fun c => is_white_space c = true) (u "  ") /\
  Forall (fun c => is_white_space c = true) [9; 10] /\
  Styled.filtered ascii_toLowerCase [Sample.cats; Sample.dogs]
    (u "  " ++ u "cat" ++ [9; 10])
  = Styled.filtered ascii_toLowerCase [Sample.cats; Sample.dogs] (u "cat").
Proof.
  assert (H1 : Forall (fun c => is_white_space c = true) (u "  "))
    by (repeat constructor).
  assert (H2 : Forall (fun c => is_white_space c = true) [9; 10])
    by (repeat constructor).
  split; [exact H1|]. split; [exact H2|].
  exact (filtered_ignores_padding ascii_toLowerCase _ _ (u "cat") _ H1 H2).
Defined.

(** The cards rendered from the filtered list keep distinct keys: if the
    stories of the collection have distinct ids, so have the cards, for
    every query. *)
Theorem card_keys_distinct
    (toLowerCase : jsstring -> jsstring) (s : Styled.State)
    (Hids : NoDup (map Story.id (Styled.stories s))) :
  NoDup (StyledRest.card_keys toLowerCase s).
Proof.
  unfold StyledRest.card_keys. rewrite filtered_eq. now apply NoDup_map_filter.
Qed.

Lemma card_keys_distinct_witness :
  let s := Sample.styled_typed (u "dragons") in
  NoDup (map Story.id (Styled.stories s)) /\
  NoDup (StyledRest.card_keys ascii_toLowerCase s).
Proof.
  intros s.
  assert (Hids : NoDup (map Story.id (Styled.stories s))).
  { cbn. apply NoDup_cons. split; [|apply NoDup_singleton].
    intros H. apply list_elem_of_singleton in H. discriminate. }
  split; [exact Hids|]. exact (card_keys_distinct ascii_toLowerCase s Hids).
Defined.

(** The notice that there are no stories shows exactly when no listing is
    under way and no story of the collection matches the trimmed query:
    also, then, over a collection that is not empty. *)
Theorem empty_notice_iff (toLowerCase : jsstring -> jsstring) (s : Styled.State) :
  StyledRest.empty_notice toLowerCase s = true <->
  Styled.fetching s = false /\
  forall x, x ∈ Styled.stories s ->
            ~ Spec.story_matches toLowerCase (trim (Styled.query s)) x.
Proof.
  unfold StyledRest.empty_notice.
  rewrite andb_true_iff, negb_true_iff, Nat.eqb_eq, filtered_eq.
  split; intros [Hf Hl]; (split; [exact Hf|]).
  - apply (proj1 (filter_nil_iff _ _)). now apply nil_length_inv.
  - now rewrite (proj2 (filter_nil_iff _ _) Hl).
Qed.

Section AsciiLower.

Lemma ascii_lower_unit_idempotent (c : N) :
  ascii_lower_unit (ascii_lower_unit c) = ascii_lower_unit c.
Proof.
  unfold ascii_lower_unit.
  destruct ((65 <=? c) && (c <=? 90)) eqn:E; [|now rewrite E].
  apply andb_true_iff in E as [H1 H2]. apply N.leb_le in H1, H2.
  replace ((65 <=? c + 32) && (c + 32 <=? 90)) with false; [reflexivity|].
  symmetry. apply andb_false_iff. right. apply N.leb_gt. lia.
Qed.

Lemma letters_are_not_space (c : N) :
  65 <= c <= 122 -> is_white_space c = false.
Proof.
  intros H. unfold is_white_space.
  repeat match goal with
         | |- context [?a =? ?b] => destruct (N.eqb_spec a b); [lia|]
         | |- context [?a <=? ?b] => destruct (N.leb_spec a b); [try lia|]
         end; reflexivity.
Qed.

Lemma ascii_lower_unit_space (c : N) :
  is_white_space (ascii_lower_unit c) = is_white_space c.
Proof.
  unfold ascii_lower_unit.
  destruct ((65 <=? c) && (c <=? 90)) eqn:E; [|reflexivity].
  apply andb_true_iff in E as [H1 H2]. apply N.leb_le in H1, H2.
  rewrite !letters_are_not_space by lia. reflexivity.
Qed.

Lemma ascii_toLowerCase_idempotent (s : jsstring) :
  ascii_toLowerCase (ascii_toLowerCase s) = ascii_toLowerCase s.
Proof.
  unfold ascii_toLowerCase. rewrite map_map. apply map_ext.
  apply ascii_lower_unit_idempotent.
Qed.

Lemma trimStart_ascii_toLowerCase (s : jsstring) :
  trimStart (ascii_toLowerCase s) = ascii_toLowerCase (trimStart s).
Proof.
  unfold ascii_toLowerCase. induction s as [|c s IH]; [reflexivity|].
  cbn [map trimStart]. rewrite ascii_lower_unit_space.
  now destruct (is_white_space c).
Qed.

Lemma trim_ascii_toLowerCase (s : jsstring) :
  trim (ascii_toLowerCase s) = ascii_toLowerCase (trim s).
Proof.
  unfold trim, trimEnd. rewrite trimStart_ascii_toLowerCase.
  unfold ascii_toLowerCase at 1. rewrite <- map_rev.
  fold (ascii_toLowerCase (rev (trimStart s))).
  rewrite trimStart_ascii_toLowerCase. unfold ascii_toLowerCase.
  symmetry. apply map_rev.
Qed.

End AsciiLower.

(** The case of the query never matters, on a platform whose lower-casing
    is idempotent and leaves white space at the ends alone: the
    lower-cased query selects what the query selects. *)
Theorem filtered_ignores_query_case
    (toLowerCase : jsstring -> jsstring)
    (Hidem : forall x, toLowerCase (toLowerCase x) = toLowerCase x)
    (Htrim : forall x, trim (toLowerCase x) = toLowerCase (trim x))
    (stories : list Story.t) (q : jsstring) :
  Styled.filtered toLowerCase stories (toLowerCase q)
    = Styled.filtered toLowerCase stories q.
Proof. unfold Styled.filtered. now rewrite Htrim, Hidem. Qed.

(** The ASCII lower-casing is such a platform; ["CAT"] selects what
    ["cat"] selects. *)
Lemma filtered_ignores_query_case_witness :
  (forall x, ascii_toLowerCase (ascii_toLowerCase x) = ascii_toLowerCase x) /\
  (forall x, trim (ascii_toLowerCase x) = ascii_toLowerCase (trim x)) /\
  Styled.filtered ascii_toLowerCase [Sample.cats; Sample.dogs]
    (ascii_toLowerCase (u "CAT"))
  = Styled.filtered ascii_toLowerCase [Sample.cats; Sample.dogs] (u "CAT").
Proof.
  split; [exact ascii_toLowerCase_idempotent|].
  split; [exact trim_ascii_toLowerCase|].
  exact (filtered_ignores_query_case ascii_toLowerCase
           ascii_toLowerCase_idempotent trim_ascii_toLowerCase
           [Sample.cats; Sample.dogs] (u "CAT")).
Defined.

(** After the mount, typing and one Enter, both flags of the styled
    component are set and a request of each kind is pending. *)
Lemma busy_means_pending_witness :
  let evs := [Styled.Mount; Styled.ChangePrompt (u "dragons"); Styled.KeyDown Enter] in
  let pevs := [Plain.Mount; Plain.ChangePrompt (u "dragons"); Plain.KeyDown Enter] in
  Styled.loading (view (Styled.steps Styled.mounted evs)) = true /\
  Styled.fetching (view (Styled.steps Styled.mounted evs)) = true /\
  Plain.loading (view (Plain.steps Plain.mounted pevs)) = true /\
  (1 <= pending_generate (Styled.steps Styled.mounted evs))%nat /\
  (1 <= pending_list (Styled.steps Styled.mounted evs))%nat /\
  (1 <= pending_generate (Plain.steps Plain.mounted pevs))%nat.
Proof.
  intros evs pevs.
  destruct (busy_means_pending evs pevs) as (H1 & H2 & H3).
  split; [reflexivity|]. split; [reflexivity|]. split; [reflexivity|].
  split; [exact (H1 eq_refl) | split; [exact (H2 eq_refl) | exact (H3 eq_refl)]].
Defined.

(** ** The filter and letter case *)

Section CaseFacts.

Lemma same_letter_lower (a b : N) :
  Case.same_letter a b <-> ascii_lower_unit a = ascii_lower_unit b.
Proof.
  unfold Case.same_letter, Case.is_upper, ascii_lower_unit.
  destruct (N.leb_spec 65 a), (N.leb_spec a 90), (N.leb_spec 65 b),
    (N.leb_spec b 90); cbn [andb]; split;
    try (intros [H3 | [[H3 H4] | [H3 H4]]]; try discriminate; lia);
    intros H3; try (left; lia); try (right; left; split; [reflexivity | lia]);
    try (right; right; split; [reflexivity | lia]).
Qed.

Lemma same_up_to_case_lower (m q : jsstring) :
  Forall2 Case.same_letter m q <-> ascii_toLowerCase m = ascii_toLowerCase q.
Proof.
  unfold ascii_toLowerCase. revert q.
  induction m as [|a m IH]; intros [|b q]; cbn [map]; split; intros H;
    try reflexivity; try constructor; try discriminate; try (now inversion H).
  - inversion H as [|? ? ? ? Hab Hmq]; subst.
    apply same_letter_lower in Hab. apply IH in Hmq. congruence.
  - injection H as Hab _. now apply same_letter_lower.
  - injection H as _ Hmq. now apply IH.
Qed.

(** On the ASCII lower-casing, the test of the callback is containment up
    to letter case. *)
Lemma ascii_contains_iff (q text : jsstring) :
  Spec.ci_contains ascii_toLowerCase q text <-> Case.contains_up_to_case q text.
Proof.
  unfold Spec.ci_contains, Case.contains_up_to_case. split.
  - intros (pre & suf & H). unfold ascii_toLowerCase in H at 1.
    apply map_eq_app in H as (t1 & t2 & -> & _ & H).
    apply map_eq_app in H as (m & t3 & -> & H & _).
    exists t1, m, t3. split; [reflexivity|]. now apply same_up_to_case_lower.
  - intros (pre & m & suf & -> & H). apply same_up_to_case_lower in H.
    exists (ascii_toLowerCase pre), (ascii_toLowerCase suf).
    unfold ascii_toLowerCase in *. now rewrite !map_app, H.
Qed.

#[export] Instance contains_up_to_case_dec (q text : jsstring) :
  Decision (Case.contains_up_to_case q text).
Proof.
  destruct (decide (Spec.ci_contains ascii_toLowerCase q text)) as [H|H].
  - left. now apply ascii_contains_iff.
  - right. intros H'. apply H. now apply ascii_contains_iff.
Defined.

#[export] Instance story_contains_dec (q : jsstring) (s : Story.t) :
  Decision (Case.story_contains q s).
Proof. unfold Case.story_contains. apply _. Defined.

Lemma ascii_trimStart (s : jsstring) :
  Case.ascii_text s -> Case.ascii_text (trimStart s).
Proof.
  unfold Case.ascii_text. induction 1 as [|c s Hc Hs IH]; simpl; [constructor|].
  destruct (is_white_space c); [exact IH | now constructor].
Qed.

Lemma ascii_trim (s : jsstring) : Case.ascii_text s -> Case.ascii_text (trim s).
Proof.
  intros H. unfold trim, trimEnd. unfold Case.ascii_text.
  apply Forall_rev. apply ascii_trimStart. unfold Case.ascii_text.
  apply Forall_rev. now apply ascii_trimStart.
Qed.

(** The lower-casing with the final sigma is the ASCII one on ASCII
    text. *)
Lemma lower_after_ascii (b : bool) (s : jsstring) :
  Case.ascii_text s -> Case.lower_after b s = ascii_toLowerCase s.
Proof.
  unfold Case.ascii_text, ascii_toLowerCase. intros H. revert b.
  induction H as [|c s Hc Hs IH]; intros b; [reflexivity|].
  cbn [Case.lower_after map]. rewrite IH.
  replace (c =? 931) with false; [reflexivity|].
  symmetry. apply N.eqb_neq. lia.
Qed.

Lemma sigma_toLowerCase_ascii (s : jsstring) :
  Case.ascii_text s -> Case.sigma_toLowerCase s = ascii_toLowerCase s.
Proof. apply lower_after_ascii. Qed.

Lemma filter_iff_on {A : Type} (P Q : A -> Prop)
    `{!forall x, Decision (P x)} `{!forall x, Decision (Q x)} (l : list A) :
  Forall (fun x => P x <-> Q x) l -> filter P l = filter Q l.
Proof.
  induction 1 as [|x l Hx _ IH]; [reflexivity|].
  rewrite !filter_cons, IH.
  destruct (decide (P x)) as [HP|HP], (decide (Q x)) as [HQ|HQ];
    try reflexivity; exfalso; tauto.
Qed.

(** On a platform that lower-cases ASCII text as the ASCII lower-casing
    does, the filter over ASCII stories with an ASCII query keeps the
    stories that contain the trimmed query up to letter case. *)
Lemma filtered_ascii (toLowerCase : jsstring -> jsstring)
    (stories : list Story.t) (query : jsstring) :
  (forall s, Case.ascii_text s -> toLowerCase s = ascii_toLowerCase s) ->
  Case.ascii_text query ->
  Forall Case.ascii_story stories ->
  Styled.filtered toLowerCase stories query =
  filter (Case.story_contains (trim query)) stories.
Proof.
  intros Hplat Hq Hst. rewrite filtered_eq. apply filter_iff_on.
  apply ascii_trim in Hq.
  eapply Forall_impl; [exact Hst|]. intros s [Hp Hs].
  unfold Spec.story_matches, Case.story_contains, Spec.ci_contains.
  rewrite (Hplat _ Hq), (Hplat _ Hp), (Hplat _ Hs).
  fold (Spec.ci_contains ascii_toLowerCase (trim query) (Story.prompt s)).
  fold (Spec.ci_contains ascii_toLowerCase (trim query) (Story.story s)).
  now rewrite !ascii_contains_iff.
Qed.

End CaseFacts.

(** C4 as stated fails twice.  The query is trimmed before it is searched
    for: with the one story [cats] and the query [" cat"], the story is
    kept although neither its prompt nor its text contains [" cat"], in
    any case of the letters.  And the test lower-cases both sides and
    searches, which is not containment up to case beyond ASCII: under the
    lower-casing with the final sigma, the story whose prompt is a
    capital A and a capital sigma is dropped for the query of one capital
    sigma, which its prompt contains as it stands. *)
Lemma filtered_as_stated_counterexample :
  (Styled.filtered ascii_toLowerCase [Sample.cats] (u " cat") = [Sample.cats] /\
   ~ Case.story_contains (u " cat") Sample.cats /\
   ~ Spec.story_matches ascii_toLowerCase (u " cat") Sample.cats) /\
  (Styled.filtered Case.sigma_toLowerCase [Case.sigma_story] [931] = [] /\
   Story.prompt Case.sigma_story = [65] ++ [931] ++ [] /\
   Case.story_contains [931] Case.sigma_story /\
   trim [931] = [931]).
Proof.
  split; [split; [reflexivity | split] | split; [reflexivity | split; [reflexivity | split]]].
  - intros [H|H]; apply ascii_contains_iff, includes_spec in H;
      vm_compute in H; discriminate.
  - intros H. apply callback_spec in H. vm_compute in H. discriminate.
  - left. exists [65], [931], []. split; [reflexivity|].
    constructor; [now left | constructor].
  - reflexivity.
Qed.

(** C4, amended. For every collection and query, [filtered] is the
    collection restricted, in the original order (a sublist of the
    collection), to the stories whose lower-cased prompt or lower-cased
    story text contains the lower-cased trimmed query, lower-cased as
    [toLowerCase] does it; when the trimmed query is empty the result is
    the whole collection.  On ASCII stories and an ASCII query (where
    [toLowerCase] lowers the letters A to Z and nothing else) these are
    exactly the stories whose prompt or story text contains the trimmed
    query up to the case of the letters. *)
Theorem filtered_keeps_matches
    (toLowerCase : jsstring -> jsstring) (stories : list Story.t)
    (query : jsstring) :
  Styled.filtered toLowerCase stories query =
    filter (Spec.story_matches toLowerCase (trim query)) stories /\
  sublist (Styled.filtered toLowerCase stories query) stories /\
  (forall s, s ∈ Styled.filtered toLowerCase stories query <->
             Spec.story_matches toLowerCase (trim query) s /\ s ∈ stories) /\
  (toLowerCase [] = [] -> trim query = [] ->
   Styled.filtered toLowerCase stories query = stories) /\
  ((forall s, Case.ascii_text s -> toLowerCase s = ascii_toLowerCase s) ->
   Case.ascii_text query ->
   Forall Case.ascii_story stories ->
   Styled.filtered toLowerCase stories query =
     filter (Case.story_contains (trim query)) stories /\
   (forall s, s ∈ Styled.filtered toLowerCase stories query <->
              Case.story_contains (trim query) s /\ s ∈ stories)).
Proof.
  split; [apply filtered_eq|]. split; [|split; [|split]].
  - rewrite filtered_eq. apply sublist_filter.
  - intros s. rewrite filtered_eq. apply list_elem_of_filter.
  - intros Hlow Hq. unfold Styled.filtered. cbv zeta. now rewrite Hq, Hlow.
  - intros Hplat Hq Hst.
    rewrite (filtered_ascii toLowerCase stories query Hplat Hq Hst).
    split; [reflexivity|]. intros s. apply list_elem_of_filter.
Qed.

(** The example of the specification, on the platform with the final
    sigma: the query ["cat"], in capitals and with spaces around it,
    keeps exactly the first of [cats; dogs], and the empty query (or one
    of spaces only) keeps both in their order. *)
Lemma filtered_keeps_matches_witness :
  let stories := [Sample.cats; Sample.dogs] in
  Case.sigma_toLowerCase [] = [] /\ trim (u "  ") = [] /\
  (forall s, Case.ascii_text s -> Case.sigma_toLowerCase s = ascii_toLowerCase s) /\
  Case.ascii_text (u " CAT ") /\ Forall Case.ascii_story stories /\
  Styled.filtered Case.sigma_toLowerCase stories (u "  ") = stories /\
  Styled.filtered Case.sigma_toLowerCase stories (u " CAT ")
    = filter (Case.story_contains (trim (u " CAT "))) stories /\
  Styled.filtered Case.sigma_toLowerCase stories (u " CAT ") = [Sample.cats] /\
  Case.story_contains (u "CAT") Sample.cats /\
  ~ Case.story_contains (u "CAT") Sample.dogs.
Proof.
  intros stories.
  assert (Hq : Case.ascii_text (u " CAT "))
    by (unfold Case.ascii_text; repeat constructor).
  assert (Hst : Forall Case.ascii_story stories)
    by (unfold Case.ascii_story, Case.ascii_text; repeat constructor).
  destruct (filtered_keeps_matches Case.sigma_toLowerCase stories (u "  "))
    as (_ & _ & _ & Hempty & _).
  destruct (filtered_keeps_matches Case.sigma_toLowerCase stories (u " CAT "))
    as (_ & _ & _ & _ & Hascii).
  destruct (Hascii sigma_toLowerCase_ascii Hq Hst) as [Heq _].
  split; [reflexivity|]. split; [reflexivity|].
  split; [exact sigma_toLowerCase_ascii|]. split; [exact Hq|].
  split; [exact Hst|]. split; [exact (Hempty eq_refl eq_refl)|].
  split; [exact Heq|]. split; [reflexivity|]. split.
  - left. apply ascii_contains_iff, includes_spec. reflexivity.
  - intros [H|H]; apply ascii_contains_iff, includes_spec in H;
      vm_compute in H; discriminate.
Defined.

(** ** The two components and the decoded body *)

Ltac loose_unfold :=
  unfold Loose.onGenerate, Loose.onGenerate_settled, Loose.generate,
    Loose.generate_settled, Loose.read, Loose.setPrompt, Loose.setLoading,
    Loose.setError, Loose.setStories, Loose.setGenerated;
  handler_unfold.

Section LooseFacts.

(** On a body of the declared type the handlers over loose bodies are the
    handlers above. *)
Lemma loose_plain_settled type_error fetched (p : Plain.State) :
  Loose.generate_settled type_error (Loose.typed_fetched fetched) p
  = Plain.generate_settled fetched p.
Proof.
  loose_unfold. destruct fetched as [[st tx js]|e]; [|reflexivity].
  unfold Loose.typed_fetched, Loose.typed_response, ok. cbn [status text json].
  destruct ((200 <=? st) && (st <=? 299))%Z; [destruct js | destruct tx];
    reflexivity.
Qed.

Lemma loose_plain_whole type_error net (p : Plain.State) :
  Loose.generate type_error (fun req => Loose.typed_fetched (net req)) p
  = Plain.generate net p.
Proof.
  loose_unfold. destruct (truthy (trim (Plain.prompt p))); [|reflexivity].
  destruct (net _) as [[st tx js]|e]; [|reflexivity].
  unfold Loose.typed_fetched, Loose.typed_response, ok. cbn [status text json].
  destruct ((200 <=? st) && (st <=? 299))%Z; [destruct js | destruct tx];
    reflexivity.
Qed.

Lemma loose_styled_settled fetched (s : Styled.State) :
  Loose.onGenerate_settled (Loose.typed_fetched fetched) (Loose.typed_state s)
  = (fst (fst (Styled.onGenerate_settled fetched s)),
     Loose.typed_state (state_of (Styled.onGenerate_settled fetched s)),
     effects_of (Styled.onGenerate_settled fetched s)).
Proof.
  loose_unfold. destruct fetched as [[st tx js]|e]; [|reflexivity].
  unfold Loose.typed_fetched, Loose.typed_response, ok. cbn [status text json].
  destruct ((200 <=? st) && (st <=? 299))%Z; [destruct js | destruct tx];
    reflexivity.
Qed.

Lemma loose_styled_whole net (s : Styled.State) :
  Loose.onGenerate (fun req => Loose.typed_fetched (net req)) (Loose.typed_state s)
  = (fst (fst (Styled.onGenerate net s)),
     Loose.typed_state (state_of (Styled.onGenerate net s)),
     effects_of (Styled.onGenerate net s)).
Proof.
  loose_unfold. cbn [Loose.prompt Loose.typed_state].
  destruct (truthy (trim (Styled.prompt s))); [|reflexivity].
  destruct (net _) as [[st tx js]|e]; [|reflexivity].
  unfold Loose.typed_fetched, Loose.typed_response, ok. cbn [status text json].
  destruct ((200 <=? st) && (st <=? 299))%Z; [destruct js | destruct tx];
    reflexivity.
Qed.

(** One action of the styled component, other than a click on the refresh
    button, keeps the two components in agreement; the plain one takes
    the same action, or none when the action is typing in the search
    box. *)
Lemma step_agree (a : App Styled.State) (b : App Plain.State) (ev : Styled.Event) :
  Shared.styled_refresh ev = false ->
  Spec.same_contract a b ->
  Spec.same_contract
    (Styled.step a ev)
    (match Shared.plain_event ev with
     | Some pev => Plain.step b pev
     | None => b
     end).
Proof.
  intros Hev Hab.
  destruct ev as [|v|key| | |v|fetched|fetched]; cbn [Shared.plain_event];
    try discriminate.
  - exact (step_same a b Plain.Mount Hab).
  - exact (step_same a b (Plain.ChangePrompt v) Hab).
  - exact (step_same a b (Plain.KeyDown key) Hab).
  - exact (step_same a b Plain.ClickSubmit Hab).
  - cbn [Styled.step Styled.handler_of].
    rewrite (run_quiet (Styled.setQuery v) a (Fulfilled tt) _ eq_refl).
    destruct Hab. now constructor.
  - exact (step_same a b (Plain.ListSettled fetched) Hab).
  - exact (step_same a b (Plain.GenerateSettled fetched) Hab).
Qed.

Lemma steps_agree (evs : list Styled.Event)
    (a : App Styled.State) (b : App Plain.State) :
  Forall (fun ev => Shared.styled_refresh ev = false) evs ->
  Spec.same_contract a b ->
  Spec.same_contract (Styled.steps a evs)
                     (Plain.steps b (omap Shared.plain_event evs)).
Proof.
  intros Hall. revert a b.
  induction Hall as [|ev evs Hev _ IH]; intros a b Hab; [exact Hab|].
  cbn [Styled.steps fold_left]. pose proof (step_agree a b ev Hev Hab) as Hstep.
  cbn [omap list_omap]. fold (@omap list _ _ _ Shared.plain_event evs).
  destruct (Shared.plain_event ev) as [pev|].
  - cbn [Plain.steps fold_left]. now apply IH.
  - now apply IH.
Qed.

End LooseFacts.

(** C9 as stated fails.  A 200 answer to the POST whose body is the JSON
    [null] takes the two components apart: the styled one stores the
    [null] in front of its collection, clears the prompt and sets no
    error; the plain one throws on [data.story], so it sets an error and
    keeps prompt and collection.  And the styled component has an input
    the plain one lacks: a click on the refresh button issues a second
    listing. *)
Lemma null_body_counterexample :
  let s := Loose.typed_state (state_of (Styled.setPrompt (u "dragons") Styled.initial)) in
  let p := state_of (Plain.setPrompt (u "dragons") Plain.initial) in
  let s' := state_of (Loose.onGenerate Loose.null_answer s) in
  let p' := state_of (Loose.generate Loose.null_read Loose.null_answer p) in
  let evs := [Styled.Mount; Styled.ListSettled (Sample.listed 200 [] GET_story);
              Styled.ClickRefresh] in
  (Loose.prompt s = Plain.prompt p /\ Loose.error s = Plain.error p /\
   Loose.stories s = map Loose.Typed (Plain.stories p)) /\
  (Loose.prompt s' = [] /\ Loose.error s' = None /\
   Loose.stories s' = [Loose.Null]) /\
  (Plain.prompt p' = u "dragons" /\
   Plain.error p' = Some (message Loose.null_read) /\
   Plain.stories p' = []) /\
  (log (Styled.steps Styled.mounted evs) = [Fetch GET_story; Fetch GET_story] /\
   log (Plain.steps Plain.mounted (omap Shared.plain_event evs)) = [Fetch GET_story]).
Proof. vm_compute. repeat split. Qed.

(** C9, amended. Through every sequence of the actions both components
    offer (mount, typing in the prompt, key presses, clicks on the submit
    button) and of settled requests whose bodies have the declared types,
    the two components stay in agreement: they have issued the same
    requests (and console diagnostics) in the same order, have the same
    requests pending, and hold the same prompt, loading flag, error and
    collection; the plain one displays the text of the Story the styled
    one holds as its result.  Typing in the styled search box in between
    changes nothing of this; only the refresh button is left out.  The
    last four parts tie the typed handlers to the ones over bodies that
    may be [null]: on a body of the declared type they are the same. *)
Theorem styled_and_plain_agree (evs : list Styled.Event)
    (Hno : Forall (fun ev => Shared.styled_refresh ev = false) evs) :
  Spec.same_contract
    (Styled.steps Styled.mounted evs)
    (Plain.steps Plain.mounted (omap Shared.plain_event evs)) /\
  (forall pevs : list Plain.Event,
     Spec.same_contract
       (Styled.steps Styled.mounted (map styled_event pevs))
       (Plain.steps Plain.mounted pevs)) /\
  (forall type_error fetched (p : Plain.State),
     Loose.generate_settled type_error (Loose.typed_fetched fetched) p
     = Plain.generate_settled fetched p) /\
  (forall type_error net (p : Plain.State),
     Loose.generate type_error (fun req => Loose.typed_fetched (net req)) p
     = Plain.generate net p) /\
  (forall fetched (s : Styled.State),
     Loose.onGenerate_settled (Loose.typed_fetched fetched) (Loose.typed_state s)
     = (fst (fst (Styled.onGenerate_settled fetched s)),
        Loose.typed_state (state_of (Styled.onGenerate_settled fetched s)),
        effects_of (Styled.onGenerate_settled fetched s))) /\
  (forall net (s : Styled.State),
     Loose.onGenerate (fun req => Loose.typed_fetched (net req)) (Loose.typed_state s)
     = (fst (fst (Styled.onGenerate net s)),
        Loose.typed_state (state_of (Styled.onGenerate net s)),
        effects_of (Styled.onGenerate net s))).
Proof.
  split; [apply steps_agree; [exact Hno | now constructor]|].
  split; [intros pevs; apply steps_same; now constructor|].
  split; [apply loose_plain_settled|]. split; [apply loose_plain_whole|].
  split; [apply loose_styled_settled | apply loose_styled_whole].
Qed.

(** A session: mount, a search typed, the listing settles, a prompt typed
    and submitted twice with Enter, one generation succeeds and one
    fails. *)
Lemma styled_and_plain_agree_witness :
  let evs :=
    [Styled.Mount; Styled.ChangeQuery (u "cat");
     Styled.ListSettled (Sample.listed 200 [Sample.cats; Sample.dogs] GET_story);
     Styled.ChangePrompt (u "dragons"); Styled.KeyDown Enter;
     Styled.KeyDown Enter; Styled.ClickSubmit;
     Styled.GenerateSettled (Sample.created 200 (POST_story (u "dragons")));
     Styled.ChangeQuery (u "dog");
     Styled.GenerateSettled (Sample.refused 500 (u "boom") (POST_story (u "dragons")))] in
  let a := Styled.steps Styled.mounted evs in
  let b := Plain.steps Plain.mounted (omap Shared.plain_event evs) in
  Forall (fun ev => Shared.styled_refresh ev = false) evs /\
  Styled.prompt (view a) = Plain.prompt (view b) /\
  Styled.error (view a) = Plain.error (view b) /\
  Styled.stories (view a) = Plain.stories (view b) /\
  log a = log b /\
  Plain.error (view b) = Some (u "boom") /\
  Plain.stories (view b) = [Sample.dragons; Sample.cats; Sample.dogs].
Proof.
  intros evs a b.
  assert (Hno : Forall (fun ev => Shared.styled_refresh ev = false) evs)
    by (repeat constructor).
  destruct (proj1 (styled_and_plain_agree evs Hno))
    as [Hprompt _ Herror Hstories _ _ _ Hlog].
  split; [exact Hno|]. split; [exact Hprompt|]. split; [exact Herror|].
  split; [exact Hstories|]. split; [exact Hlog|]. split; reflexivity.
Defined.
